(** * outage-data-ua: the fact parser [scripts/parse_fact.js]

    A shallow embedding of the extraction / parsing / normalisation /
    merge-and-persist engine, and the properties of it that the
    specification states.

    Conventions of the embedding.
    - Text is a [string] of bytes, the UTF-8 form of the JavaScript string
      (the script reads its input as utf8).  Character classes of the
      script's regular expressions that reach beyond ASCII are written out
      on the UTF-8 encodings.
    - A JavaScript value is a [value]: JSON data whose numbers are integers
      (exact in the script's arithmetic below 2^53).  [undefined] is the
      [None] of [option value].
    - An object is the list of its properties in enumeration order.
    - The host (JSON.parse, Function, crypto, Intl, the clock) is a record
      [Host]; the file system is the [World] the script runs in. *)

From Stdlib Require Import ZArith List String Ascii Bool Lia.
From Stdlib Require Import Numbers.DecimalString.
Import ListNotations.

Local Open Scope string_scope.
Local Open Scope Z_scope.

(** ** Text helpers *)

Definition byte (n : Z) : string := String (ascii_of_N (Z.to_N n)) EmptyString.

(** The double quote, which a string literal of this file cannot hold. *)
Definition dq : string := byte 34.

(** [sq2dq s] is [s] with every single quote turned into a double quote:
    JSON text is written below with ' standing for the double quote. *)
Fixpoint sq2dq (s : string) : string :=
  match s with
  | EmptyString => EmptyString
  | String c r => String (if Ascii.eqb c "'"%char then ascii_of_N 34 else c) (sq2dq r)
  end.

Definition code (c : ascii) : N := N_of_ascii c.

Definition is_digit (c : ascii) : bool := ((48 <=? code c) && (code c <=? 57))%N.

Fixpoint drop (n : nat) (s : string) : string :=
  match n, s with
  | O, _ => s
  | S n', String _ r => drop n' r
  | S _, EmptyString => EmptyString
  end.

(** Whether [s] starts with [p]. *)
Fixpoint starts_with (p s : string) : bool :=
  match p with
  | EmptyString => true
  | String a p' =>
      match s with
      | String b s' => Ascii.eqb a b && starts_with p' s'
      | EmptyString => false
      end
  end.

(** [s.split(sep)] for a one-character separator. *)
Fixpoint split_on (sep : ascii) (s : string) : list string :=
  match s with
  | EmptyString => [EmptyString]
  | String c r =>
      if Ascii.eqb c sep then EmptyString :: split_on sep r
      else match split_on sep r with
           | p :: ps => String c p :: ps
           | [] => [String c EmptyString]
           end
  end.

Definition string_of_Z (z : Z) : string := NilZero.string_of_int (Z.to_int z).

Fixpoint repeat_string (n : nat) (s : string) : string :=
  match n with O => EmptyString | S n' => s ++ repeat_string n' s end.

(** [s.padStart(w, '0')]. *)
Definition padStart0 (w : nat) (s : string) : string :=
  repeat_string (w - String.length s) "0" ++ s.

(** ** Values *)

Set Warnings "-register-all".


Inductive value : Type :=
| VNull
| VBool (b : bool)
| VNum (n : Z)
| VStr (s : string)
| VArr (xs : list value)
| VObj (fields : list (string * value)).

(** A JavaScript value or [undefined]. *)
Definition jsval := option value.

Definition undefined : jsval := None.

Definition truthy (v : jsval) : bool :=
  match v with
  | None => false
  | Some VNull => false
  | Some (VBool b) => b
  | Some (VNum n) => negb (n =? 0)
  | Some (VStr s) => negb (s =? EmptyString)%string
  | Some (VArr _) => true
  | Some (VObj _) => true
  end.

(** [a || b]. *)
Definition js_or (a b : jsval) : jsval := if truthy a then a else b.

Fixpoint lookup (k : string) (fs : list (string * value)) : jsval :=
  match fs with
  | [] => None
  | (k', v) :: r => if (k' =? k)%string then Some v else lookup k r
  end.

(** [o.k] for a receiver that is neither [null] nor [undefined], at the
    property names the script reads: own properties of an object, [length]
    of a string or an array, nothing on the other primitives.  The length
    of a string is counted in bytes; the script reads it only from text
    that has matched [timeRe], which is ASCII. *)
Definition prop (o : value) (k : string) : jsval :=
  match o with
  | VObj fs => lookup k fs
  | VArr xs => if (k =? "length")%string then Some (VNum (Z.of_nat (List.length xs))) else None
  | VStr s => if (k =? "length")%string then Some (VNum (Z.of_nat (String.length s))) else None
  | _ => None
  end.

(** [o.k] where the script has checked [o] to be truthy first. *)
Definition prop_of (o : jsval) (k : string) : jsval :=
  match o with Some v => prop v k | None => None end.

Fixpoint assign (k : string) (v : value) (fs : list (string * value)) : list (string * value) :=
  match fs with
  | [] => [(k, v)]
  | (k', v') :: r => if (k' =? k)%string then (k, v) :: r else (k', v') :: assign k v r
  end.

(** [o.k = v] in sloppy mode, as the written JSON will show it: an object
    takes the property; on an array it is a property that JSON.stringify
    leaves out; on a primitive the write is dropped. *)
Definition set_prop (o : value) (k : string) (v : value) : value :=
  match o with
  | VObj fs => VObj (assign k v fs)
  | _ => o
  end.

(** [o.k] read back just after [o.k = v]. *)
Definition read_back (o : value) (k : string) (v : value) : jsval :=
  match o with
  | VObj _ | VArr _ => Some v
  | _ => prop o k
  end.

Definition is_number (v : jsval) : bool :=
  match v with Some (VNum _) => true | _ => false end.

(** [isObject(x)]: truthy, of type object, not an array. *)
Definition isObject (x : jsval) : bool :=
  match x with Some (VObj _) => true | _ => false end.

Definition isArray (x : jsval) : bool :=
  match x with Some (VArr _) => true | _ => false end.

Definition join_comma (parts : list string) : string :=
  match parts with
  | [] => EmptyString
  | p :: ps => fold_left (fun acc q => acc ++ "," ++ q) ps p
  end.

(** [String(v)]. *)
Fixpoint js_String (v : value) : string :=
  match v with
  | VNull => "null"
  | VBool true => "true"
  | VBool false => "false"
  | VNum n => string_of_Z n
  | VStr s => s
  | VArr xs =>
      join_comma (map (fun x => match x with VNull => EmptyString | _ => js_String x end) xs)
  | VObj _ => "[object Object]"
  end.

Definition js_String_opt (v : jsval) : string :=
  match v with Some x => js_String x | None => "undefined" end.

(** ** Numbers *)

(** The double nearest to the integer [x], ties going to the even
    significand: [x] itself up to 2^53, a multiple of the spacing of the
    doubles beyond.  ([x] is taken below 2^1024, where the doubles end.) *)
Definition round_double (x : Z) : Z :=
  let a := Z.abs x in
  if a <=? 9007199254740992 then x
  else
    let e := Z.log2 a - 52 in
    let q := Z.shiftr a e in
    let r := a - Z.shiftl q e in
    let half := Z.shiftl 1 (e - 1) in
    let q' := if r <? half then q
              else if half <? r then q + 1
              else if Z.even q then q else q + 1 in
    Z.sgn x * Z.shiftl q' e.

(** [a + b] on numbers that are integers: the exact sum, rounded as the
    double arithmetic of the script rounds it. *)
Definition js_add (a b : Z) : Z := round_double (a + b).

(** ** Exceptions *)

(** An [Error] object, by its message. *)
Definition js_Error (message : string) : jsval := Some (VObj [("message", VStr message)]).

(** ['...' + e.message] for a value [e] that was thrown: the text of the
    message, [None] when reading it throws because [e] is [null] or
    [undefined]. *)
Definition message_of (e : jsval) : option string :=
  match e with
  | None | Some VNull => None
  | Some v => Some (js_String_opt (prop v "message"))
  end.

(** The [TypeError] of reading [e.message] on [null] or [undefined]. *)
Definition nullish_read (e : jsval) : jsval :=
  js_Error ("Cannot read properties of " ++ js_String_opt e ++ " (reading 'message')").

(** ** Literal locator: [extractFact] *)

Definition bytes (l : list Z) : string :=
  fold_right (fun n s => String (ascii_of_N (Z.to_N n)) s) EmptyString l.

(** The characters that [/\s/] matches, each in its UTF-8 encoding. *)
Definition whitespace : list string :=
  [ bytes [9]; bytes [10]; bytes [11]; bytes [12]; bytes [13]; bytes [32];
    bytes [194; 160];                                   (* U+00A0 *)
    bytes [225; 154; 128];                              (* U+1680 *)
    bytes [226; 128; 128]; bytes [226; 128; 129]; bytes [226; 128; 130];
    bytes [226; 128; 131]; bytes [226; 128; 132]; bytes [226; 128; 133];
    bytes [226; 128; 134]; bytes [226; 128; 135]; bytes [226; 128; 136];
    bytes [226; 128; 137]; bytes [226; 128; 138];       (* U+2000 .. U+200A *)
    bytes [226; 128; 168]; bytes [226; 128; 169];       (* U+2028, U+2029 *)
    bytes [226; 128; 175];                              (* U+202F *)
    bytes [226; 129; 159];                              (* U+205F *)
    bytes [227; 128; 128];                              (* U+3000 *)
    bytes [239; 187; 191] ].                            (* U+FEFF *)

Fixpoint width_in (table : list string) (s : string) : nat :=
  match table with
  | [] => O
  | w :: r => if starts_with w s then String.length w else width_in r s
  end.

(** Number of bytes of the whitespace character [s] starts with, 0 when it
    starts with none: [/\s/.test(html[i])]. *)
Definition ws_width (s : string) : nat := width_in whitespace s.

Fixpoint skip_ws_fuel (fuel : nat) (s : string) : string :=
  match fuel with
  | O => s
  | S f => match ws_width s with
           | O => s
           | w => skip_ws_fuel f (drop w s)
           end
  end.

(** [while (i < html.length && /\s/.test(html[i])) i++], on the text from
    position [i] on. *)
Definition skip_ws (s : string) : string := skip_ws_fuel (String.length s) s.

Definition marker : string := "DisconSchedule.fact =".

(** [html.indexOf(marker)], as the text that follows the first occurrence. *)
Fixpoint after_marker (html : string) : option string :=
  if starts_with marker html then Some (drop (String.length marker) html)
  else match html with
       | EmptyString => None
       | String _ r => after_marker r
       end.

(** The [for] loop over the braces, from position [i] on with the current
    [depth]; the result is [html.slice(i, end + 1)]. *)
Fixpoint scan_braces (s : string) (depth : Z) : option string :=
  match s with
  | EmptyString => None
  | String ch r =>
      if Ascii.eqb ch "{"%char then option_map (String ch) (scan_braces r (depth + 1))
      else if Ascii.eqb ch "}"%char then
        if depth - 1 =? 0 then Some (String ch EmptyString)
        else option_map (String ch) (scan_braces r (depth - 1))
      else option_map (String ch) (scan_braces r depth)
  end.

Definition MarkerNotFound : string := "Marker `DisconSchedule.fact =` not found".
Definition UnexpectedToken : string := "Expected `{` after `DisconSchedule.fact =`".
Definition UnbalancedBraces : string := "Unbalanced braces while extracting fact object".

(** The result of [extractFact]: [{ jsonLike, ... }] or [{ error }].  The
    offsets [startIndex] and [endIndex] of the script's result are read by
    no caller and are left out. *)
Inductive extraction : Type :=
| Extracted (jsonLike : string)
| ExtractError (error : string).

Definition extractFact (html : string) : extraction :=
  match after_marker html with
  | None => ExtractError MarkerNotFound
  | Some rest =>
      match skip_ws rest with
      | String ch _ as body =>
          if Ascii.eqb ch "{"%char then
            match scan_braces body 0 with
            | Some jsonLike => Extracted jsonLike
            | None => ExtractError UnbalancedBraces
            end
          else ExtractError UnexpectedToken
      | EmptyString => ExtractError UnexpectedToken
      end
  end.

(** ** Dates: the part of [Date] the script uses *)

(** A JavaScript number that may be [NaN]. *)
Definition num := option Z.

Definition NaN : num := None.

Definition msPerDay : Z := 86400000.

(** Days from 1970-01-01 to the civil date [y]-[m]-[d], [m] from 1. *)
Definition days_from_civil (y m d : Z) : Z :=
  let y' := if m <=? 2 then y - 1 else y in
  let era := y' / 400 in
  let yoe := y' - era * 400 in
  let mp := if 2 <? m then m - 3 else m + 9 in
  let doy := (153 * mp + 2) / 5 + d - 1 in
  let doe := yoe * 365 + yoe / 4 - yoe / 100 + doy in
  era * 146097 + doe - 719468.

(** The civil date (year, month from 1, day) of day number [z]. *)
Definition civil_from_days (z : Z) : Z * Z * Z :=
  let z' := z + 719468 in
  let era := z' / 146097 in
  let doe := z' - era * 146097 in
  let yoe := (doe - doe / 1460 + doe / 36524 - doe / 146096) / 365 in
  let doy := doe - (365 * yoe + yoe / 4 - yoe / 100) in
  let mp := (5 * doy + 2) / 153 in
  let d := doy - (153 * mp + 2) / 5 + 1 in
  let m := if mp <? 10 then mp + 3 else mp - 9 in
  ((if m <=? 2 then yoe + era * 400 + 1 else yoe + era * 400), m, d).

(** [Date.UTC(year, month, day, hours, minutes, seconds)], [month] from 0:
    components out of range carry over, a year of 0 to 99 means 1900 + year,
    and a time beyond 8.64e15 ms is [NaN]. *)
Definition Date_UTC (year : num) (month day hours minutes seconds : Z) : num :=
  match year with
  | None => NaN
  | Some y =>
      let yr := if (0 <=? y) && (y <=? 99) then 1900 + y else y in
      let ym := yr + month / 12 in
      let mn := month mod 12 in
      let days := days_from_civil ym (mn + 1) 1 + day - 1 in
      let t := days * msPerDay + hours * 3600000 + minutes * 60000 + seconds * 1000 in
      if Z.abs t <=? 8640000000000000 then Some t else NaN
  end.

Definition getUTCFullYear (t : Z) : Z := fst (fst (civil_from_days (t / msPerDay))).
Definition getUTCMonth (t : Z) : Z := snd (fst (civil_from_days (t / msPerDay))) - 1.
Definition getUTCDate (t : Z) : Z := snd (civil_from_days (t / msPerDay)).
Definition getUTCHours (t : Z) : Z := (t mod msPerDay) / 3600000.
Definition getUTCMinutes (t : Z) : Z := ((t mod msPerDay) / 60000) mod 60.
Definition getUTCSeconds (t : Z) : Z := ((t mod msPerDay) / 1000) mod 60.
Definition getUTCMilliseconds (t : Z) : Z := t mod 1000.

(** [String(n).padStart(2, '0')]. *)
Definition pad2 (n : Z) : string := padStart0 2 (string_of_Z n).

(** [new Date(t).toISOString()]. *)
Definition toISOString (t : Z) : string :=
  let y := getUTCFullYear t in
  let year :=
    if (0 <=? y) && (y <=? 9999) then padStart0 4 (string_of_Z y)
    else (if y <? 0 then "-" else "+") ++ padStart0 6 (string_of_Z (Z.abs y)) in
  year ++ "-" ++ pad2 (getUTCMonth t + 1) ++ "-" ++ pad2 (getUTCDate t)
       ++ "T" ++ pad2 (getUTCHours t) ++ ":" ++ pad2 (getUTCMinutes t)
       ++ ":" ++ pad2 (getUTCSeconds t)
       ++ "." ++ padStart0 3 (string_of_Z (getUTCMilliseconds t)) ++ "Z".

(** ** The host *)

(** What [Function(body)()] does: it returns a value or throws one.  The
    call is taken to have no effect besides: a body that ends the process,
    sets its exit code, does not return, or answers differently from one
    run to the next is outside of the model, and so is a value that is
    not data (one with getters). *)
Inductive evaluation : Type :=
| Returned (v : value)
| Thrown (e : jsval).

Record Host : Type := {
  (** [JSON.parse(text)], [None] when it throws. *)
  JSON_parse : string -> option value;
  (** [Function(body)()]: compile [body] as a function body and call it. *)
  Function_call : string -> evaluation;
  (** [crypto.createHash('sha256').update(data).digest('hex')]. *)
  sha256 : string -> string;
  (** [Number(s)] on a string. *)
  Number_of : string -> num;
  (** The offset of Europe/Kyiv from UTC, in minutes, in force at a UTC
      instant (ms): what [Intl.DateTimeFormat] shows the wall clock by. *)
  zone_offset : Z -> Z;
  (** The system clock (ms since the epoch) at its k-th reading. *)
  clock : nat -> Z
}.

(** ** Group normaliser: time zone arithmetic *)

Section Zone.

Variable h : Host.

(** [tzOffsetMinutes(utcTs, 'Europe/Kyiv')].  The formatter throws on an
    invalid date ([None]); otherwise the wall clock it shows is taken as a
    UTC time and compared with the instant.  The formatter shows the year
    without its era: a year before 1 CE as the count of years BCE; the
    hour after midnight it is taken to show as 00 (the hour cycle h23; a
    version of node that resolves [hour12: false] to h24 shows 24).  Every
    instant the script passes is a whole minute and the offsets of the
    host are whole minutes, so the division is exact; the offsets of
    Europe/Kyiv are whole minutes from 1924-05-02 on, and what the script
    does with an earlier instant is outside of the model. *)
Definition tzOffsetMinutes (utcTs : num) : option num :=
  match utcTs with
  | None => None
  | Some ts =>
      let wall := ts + zone_offset h ts * 60000 in
      let year := if getUTCFullYear wall <=? 0 then 1 - getUTCFullYear wall
                  else getUTCFullYear wall in
      let asUTC := Date_UTC (Some year) (getUTCMonth wall + 1 - 1)
                     (getUTCDate wall) (getUTCHours wall) (getUTCMinutes wall)
                     (getUTCSeconds wall) in
      Some (match asUTC with
            | Some a => Some ((a - ts) / 60000)
            | None => NaN
            end)
  end.

(** [x || d] on a number that may be missing. *)
Definition num_or (x : option num) (d : Z) : Z :=
  match x with
  | Some (Some n) => if n =? 0 then d else n
  | _ => d
  end.

(** [new Date(t)]: the time value, clipped. *)
Definition new_Date (t : num) : num :=
  match t with
  | Some n => if Z.abs n <=? 8640000000000000 then Some n else NaN
  | None => NaN
  end.

(** [zonedTimeToUtc(dateStr, timeStr, 'Europe/Kyiv')]: the time value of the
    resulting date, [None] when the call throws. *)
Definition zonedTimeToUtc (dateStr timeStr : string) : option num :=
  let dparts := map (Number_of h) (split_on "-"%char dateStr) in
  let tparts := map (Number_of h) (split_on ":"%char timeStr) in
  let Y := match nth_error dparts 0 with Some y => y | None => NaN end in
  let M := nth_error dparts 1 in
  let D := nth_error dparts 2 in
  let hh := nth_error tparts 0 in
  let mm := nth_error tparts 1 in
  let ts := Date_UTC Y (num_or M 1 - 1) (num_or D 1) (num_or hh 0) (num_or mm 0) 0 in
  match tzOffsetMinutes ts with
  | None => None
  | Some off =>
      Some (new_Date (match ts, off with
                      | Some t, Some o => Some (t - o * 60000)
                      | _, _ => NaN
                      end))
  end.

Definition num_to_string (n : num) : string :=
  match n with Some z => string_of_Z z | None => "NaN" end.

(** [formatOffset(totalMinutes)]. *)
Definition formatOffset (totalMinutes : num) : string :=
  match totalMinutes with
  | Some t =>
      let sign := if 0 <=? t then "+" else "-" in
      let a := Z.abs t in
      sign ++ pad2 (a / 60) ++ ":" ++ pad2 (a mod 60)
  | None => "-" ++ padStart0 2 "NaN" ++ ":" ++ padStart0 2 "NaN"
  end.

(** [toKyivIso(dateStr, timeStr)], [None] when it throws. *)
Definition toKyivIso (dateStr timeStr : string) : option string :=
  match zonedTimeToUtc dateStr timeStr with
  | None => None
  | Some utcDate =>
      match tzOffsetMinutes utcDate, utcDate with
      | Some off, Some t =>
          let Y := string_of_Z (getUTCFullYear t) in
          let M := pad2 (getUTCMonth t + 1) in
          let D := pad2 (getUTCDate t) in
          let hh := pad2 (getUTCHours t) in
          let mm := pad2 (getUTCMinutes t) in
          let ss := pad2 (getUTCSeconds t) in
          Some (Y ++ "-" ++ M ++ "-" ++ D ++ "T" ++ hh ++ ":" ++ mm ++ ":" ++ ss
                  ++ formatOffset off)
      | _, _ => None
      end
  end.

End Zone.

(** ** Group normaliser: [extractGroupsWithIso] *)

(** Bytes of the letter of [[A-ZА-Я]], case ignored, that [s] starts with;
    0 when it starts with none.  With the [i] flag a character is in the
    class when its upper case is: the ASCII letters (an upper case that
    leaves ASCII for it, or enters it, does not count), А..Я and а..я,
    which are U+0410..U+044F, and the seven letters U+1C80..U+1C86, whose
    upper case is one of В, Д, О, С, Т, Ъ. *)
Definition letter_width (s : string) : nat :=
  match s with
  | EmptyString => O
  | String a r =>
      let c := code a in
      if (((65 <=? c) && (c <=? 90)) || ((97 <=? c) && (c <=? 122)))%N then 1%nat
      else match r with
           | EmptyString => O
           | String b r' =>
               let d := code b in
               if ((c =? 208) && (144 <=? d) && (d <=? 191))%N then 2%nat
               else if ((c =? 209) && (128 <=? d) && (d <=? 143))%N then 2%nat
               else match r' with
                    | EmptyString => O
                    | String b' _ =>
                        if ((c =? 225) && (d =? 178)
                            && (128 <=? code b') && (code b' <=? 134))%N then 3%nat
                        else O
                    end
           end
  end.

(** The longest run of letters at the head of [s]: how many, and what
    follows. *)
Fixpoint skip_letters (fuel : nat) (s : string) : nat * string :=
  match fuel with
  | O => (O, s)
  | S f => match letter_width s with
           | O => (O, s)
           | w => let (n, r) := skip_letters f (drop w s) in (S n, r)
           end
  end.

Fixpoint skip_digits (s : string) : nat * string :=
  match s with
  | String c r => if is_digit c then let (n, r') := skip_digits r in (S n, r') else (O, s)
  | EmptyString => (O, s)
  end.

(** [/^[A-ZА-Я]{2,}\d+\.\d+$/i.test(k)]. *)
Definition groupKeyRe (k : string) : bool :=
  let (letters, r1) := skip_letters (String.length k) k in
  let (d1, r2) := skip_digits r1 in
  match r2 with
  | String "."%char r3 =>
      let (d2, r4) := skip_digits r3 in
      (2 <=? letters)%nat && (1 <=? d1)%nat && (1 <=? d2)%nat && (r4 =? EmptyString)%string
  | _ => false
  end.

(** [/^\d{1,2}:\d{2}$/.test(s)]. *)
Definition timeRe (s : string) : bool :=
  match s with
  | String a (String b (String c (String d EmptyString))) =>
      is_digit a && Ascii.eqb b ":"%char && is_digit c && is_digit d
  | String a (String b (String c (String d (String e EmptyString)))) =>
      is_digit a && is_digit b && Ascii.eqb c ":"%char && is_digit d && is_digit e
  | _ => false
  end.

Definition null : jsval := Some VNull.

Definition entry_date (entry : value) : jsval :=
  js_or (js_or (js_or (prop entry "date") (prop entry "day")) (prop entry "d")) null.

Definition entry_start (entry : value) : jsval :=
  js_or (js_or (js_or (js_or (prop entry "start") (prop entry "from")) (prop entry "begin"))
           (prop entry "s")) null.

Definition entry_end (entry : value) : jsval :=
  js_or (js_or (js_or (js_or (prop entry "end") (prop entry "to")) (prop entry "finish"))
           (prop entry "e")) null.

(** The test that guards the conversion of an entry:
    [isObject(entry)] and
    [date && start && end && timeRe.test(start) && timeRe.test(end)]. *)
Definition entry_matches (entry : value) : bool :=
  isObject (Some entry)
  && truthy (entry_date entry) && truthy (entry_start entry) && truthy (entry_end entry)
  && timeRe (js_String_opt (entry_start entry)) && timeRe (js_String_opt (entry_end entry)).

(** [if (t.length === 4) t = '0' + t]. *)
Definition pad_hour (t : jsval) : jsval :=
  match t with
  | Some v =>
      match prop v "length" with
      | Some (VNum 4) => Some (VStr ("0" ++ js_String v))
      | _ => t
      end
  | None => t
  end.

Section Groups.

Variable h : Host.

(** One turn of the loop over the entries of a group: the item pushed. *)
Definition normalize_entry (entry : value) : value :=
  if entry_matches entry then
    let date := entry_date entry in
    let start := pad_hour (entry_start entry) in
    let end_ := pad_hour (entry_end entry) in
    match toKyivIso h (js_String_opt date) (js_String_opt start) with
    | Some startISO =>
        match toKyivIso h (js_String_opt date) (js_String_opt end_) with
        | Some endISO =>
            VObj [("date", VStr (js_String_opt date));
                  ("startLocal", VStr startISO);
                  ("endLocal", VStr endISO)]
        | None => entry
        end
    | None => entry
    end
  else entry.

(** One turn of the loop over the keys of the payload. *)
Definition group_step (data : list (string * value)) (out : list (string * value)) (k : string)
  : list (string * value) :=
  match lookup k data with
  | None => out
  | Some v =>
      if negb (groupKeyRe k) then out
      else match v with
           | VArr entries => assign k (VArr (map normalize_entry entries)) out
           | _ => assign k v out
           end
  end.

(** [extractGroupsWithIso(data)]: the object of the groups, or [null]. *)
Definition extractGroupsWithIso (data : jsval) : value :=
  match data with
  | Some (VObj fs) =>
      let out := fold_left (group_step fs) (map fst fs) [] in
      match out with
      | [] => VNull
      | _ => VObj out
      end
  | _ => VNull
  end.

End Groups.

(** ** The world the script runs in *)

(** The file named by [--in]. *)
Inductive in_file : Type :=
| InMissing                          (* [fs.existsSync] is false *)
| InUnreadable (message : string)    (* it exists, [fs.readFileSync] throws *)
| InText (html : string).

(** The file named by [--out]. *)
Inductive out_file : Type :=
| OutMissing
| OutCorrupt (raw : string)          (* content that is not valid JSON *)
| OutJson (doc : value).             (* JSON text, by the value it denotes *)

Record World : Type := {
  input : in_file;
  output : out_file;
  (** [data/_template.json], [None] when it cannot be read and parsed. *)
  template : option value;
  (** Readings of the clock taken so far. *)
  ticks : nat
}.

Definition with_output (w : World) (o : out_file) : World :=
  {| input := input w; output := o; template := template w; ticks := ticks w |}.

(** How a computation of the script ends: with a result, with an exception,
    or in [process.exit]. *)
Inductive outcome (A : Type) : Type :=
| Ret (a : A)
| Throw (e : jsval)
| Exit (status : Z).

Arguments Ret {A} a.
Arguments Throw {A} e.
Arguments Exit {A} status.

Definition M (A : Type) : Type := World -> outcome A * World.

Definition ret {A} (a : A) : M A := fun w => (Ret a, w).

Definition bind {A B} (c : M A) (k : A -> M B) : M B :=
  fun w =>
    match c w with
    | (Ret a, w') => k a w'
    | (Throw e, w') => (Throw e, w')
    | (Exit s, w') => (Exit s, w')
    end.

(** [throw e]. *)
Definition throw {A} (e : jsval) : M A := fun w => (Throw e, w).

Definition process_exit {A} (status : Z) : M A := fun w => (Exit status, w).

(** [try { c } catch (e) { handler(e) }]. *)
Definition try_catch {A} (c : M A) (handler : jsval -> M A) : M A :=
  fun w =>
    match c w with
    | (Throw e, w') => handler e w'
    | r => r
    end.

Declare Scope script_scope.
Delimit Scope script_scope with script.
Notation "x <- c ;; k" := (bind c (fun x => k))
  (at level 61, c at next level, right associativity) : script_scope.
Notation "c ;;; k" := (bind c (fun _ => k))
  (at level 61, right associativity) : script_scope.
Local Open Scope script_scope.

(** ** Command line *)

Record Args : Type := {
  region : option string;
  arg_input : option string;
  arg_output : option string;
  upstream : option string;
  pretty : bool
}.

Definition no_args : Args :=
  {| region := None; arg_input := None; arg_output := None; upstream := None; pretty := false |}.

(** The loop of [parseArgs] over what is left of [argv]; [argv[++i]] past
    the end is [undefined]. *)
Fixpoint parseArgs_from (rest : list string) (args : Args) : Args :=
  match rest with
  | [] => args
  | a :: r =>
      let next := match r with x :: _ => Some x | [] => None end in
      let keep := fun args' => match r with
                               | _ :: r' => parseArgs_from r' args'
                               | [] => args'
                               end in
      if (a =? "--region")%string then
        keep {| region := next; arg_input := arg_input args; arg_output := arg_output args;
                upstream := upstream args; pretty := pretty args |}
      else if (a =? "--in")%string then
        keep {| region := region args; arg_input := next; arg_output := arg_output args;
                upstream := upstream args; pretty := pretty args |}
      else if (a =? "--out")%string then
        keep {| region := region args; arg_input := arg_input args; arg_output := next;
                upstream := upstream args; pretty := pretty args |}
      else if (a =? "--upstream")%string then
        keep {| region := region args; arg_input := arg_input args; arg_output := arg_output args;
                upstream := next; pretty := pretty args |}
      else if (a =? "--pretty")%string then
        parseArgs_from r {| region := region args; arg_input := arg_input args;
                            arg_output := arg_output args; upstream := upstream args;
                            pretty := true |}
      else parseArgs_from r args
  end.

(** [parseArgs(argv)]: the options start at [argv[2]]. *)
Definition parseArgs (argv : list string) : Args :=
  parseArgs_from (skipn 2 argv) no_args.

Definition str (s : option string) : jsval :=
  match s with Some x => Some (VStr x) | None => None end.

(** [x || null], as a value. *)
Definition or_null (x : jsval) : value :=
  match js_or x null with Some v => v | None => VNull end.

(** ** Safe structural parser and document merger *)

(** What [tryParseObject] does: it returns [{ value, method }] or
    [{ error }], or it throws. *)
Inductive parse_result : Type :=
| Parsed (v : value) (method : string)
| ParseError (error : string)
| ParseThrows (e : jsval).

(** The template the script falls back on when [data/_template.json] is
    not available. *)
Definition fallback_template (regionId : jsval) (upstream : value) (now : string) : value :=
  VObj [("regionId", or_null regionId);
        ("regionName", VNull);
        ("regionType", VNull);
        ("lastUpdated", VNull);
        ("data", VArr []);
        ("lastUpdateStatus",
          VObj [("status", VStr "idle"); ("ok", VBool true); ("code", VNull);
                ("message", VNull); ("at", VNull); ("attempt", VNum 0)]);
        ("meta",
          VObj [("schemaVersion", VStr "1.0.0");
                ("fileCreated", VStr now);
                ("timezone", VStr "Europe/Kyiv");
                ("source", VObj [("type", VStr "proxy");
                                 ("upstream", or_null (Some upstream));
                                 ("notes", VStr "Initialized by parser")]);
                ("ttlSeconds", VNum 300);
                ("nextScheduledFetch", VNull);
                ("etag", VNull);
                ("contentHash", VNull);
                ("dataEmpty", VBool true);
                ("dataEmptyReason", VStr "initialized")])].

(** [doc.meta.k = v] on a document whose [meta] is an object. *)
Definition set_meta (doc : value) (k : string) (v : value) : value :=
  match prop doc "meta" with
  | Some m => set_prop doc "meta" (set_prop m k v)
  | None => doc
  end.

(** The [lastUpdateStatus] block the script writes. *)
Definition status_block (status : string) (ok : bool) (code : Z) (message : value)
    (at_ : string) (attempt : Z) : value :=
  VObj [("status", VStr status); ("ok", VBool ok); ("code", VNum code);
        ("message", message); ("at", VStr at_); ("attempt", VNum attempt)].

(** [(x.lastUpdateStatus && typeof x.lastUpdateStatus.attempt === 'number')
     ? x.lastUpdateStatus.attempt : 0], for a truthy [x]. *)
Definition prev_attempt (x : value) : Z :=
  let lus := prop x "lastUpdateStatus" in
  if truthy lus && is_number (prop_of lus "attempt") then
    match prop_of lus "attempt" with Some (VNum n) => n | _ => 0 end
  else 0.

(** [!data || (Array.isArray(data) ? data.length === 0
                                   : Object.keys(data).length === 0)]. *)
Definition data_is_empty (data : jsval) : bool :=
  negb (truthy data)
  || match data with
     | Some (VArr xs) => (List.length xs =? 0)%nat
     | Some (VObj fs) => (List.length fs =? 0)%nat
     | Some (VStr s) => (String.length s =? 0)%nat
     | _ => true
     end.

Section Engine.

Variable h : Host.

(** [isoNow()]: one reading of the clock. *)
Definition isoNow : M string :=
  fun w => (Ret (toISOString (clock h (ticks w))),
            {| input := input w; output := output w; template := template w;
               ticks := S (ticks w) |}).

(** [fs.existsSync(args.input)]. *)
Definition existsSync : M bool :=
  fun w => (Ret (match input w with InMissing => false | _ => true end), w).

(** [readFile(args.input)]. *)
Definition readFile : M string :=
  fun w => match input w with
           | InText html => (Ret html, w)
           | InUnreadable m => (Throw (js_Error m), w)
           | InMissing => (Throw (js_Error "ENOENT: no such file or directory"), w)
           end.

(** [writeFileAtomic(args.output, JSON.stringify(obj))]: the directory is
    made, the text written to a sibling and renamed into place; the write
    is taken to succeed.  The [--pretty] flag changes the white space of
    the text only. *)
Definition writeFileAtomic (obj : value) : M unit :=
  fun w => (Ret tt, with_output w (OutJson obj)).

(** [loadExisting(args.output)]: the parsed document, or [null]. *)
Definition loadExisting : M value :=
  fun w => (Ret (match output w with OutJson doc => doc | _ => VNull end), w).

Definition wrap_body (text : string) : string :=
  dq ++ "use strict" ++ dq ++ "; return (" ++ text ++ ");".

Definition tryParseObject (text : string) : parse_result :=
  match JSON_parse h text with
  | Some v => Parsed v "json"
  | None =>
      match Function_call h (wrap_body text) with
      | Returned v => Parsed v "eval"
      | Thrown e =>
          match message_of e with
          | Some m => ParseError ("Failed to parse object: " ++ m)
          | None => ParseThrows (nullish_read e)
          end
      end
  end.

Definition read_template (regionId : jsval) (upstream : value) (now : string) : M value :=
  fun w => (Ret (match template w with
                 | Some t => t
                 | None => fallback_template regionId upstream now
                 end), w).

(** What [loadTemplateBase] does to the template it has read; [None] when
    the assignment to [template.regionId] throws. *)
Definition template_base (tpl : value) (regionId : jsval) (upstream : value) (now : string)
  : option value :=
  match tpl with
  | VNull => None
  | _ =>
      let t1 := set_prop tpl "regionId" (or_null (js_or regionId (prop tpl "regionId"))) in
      let t2 :=
        match prop t1 "meta" with
        | Some m =>
            match prop m "source" with
            | Some src =>
                if truthy (Some m) && truthy (Some src) then
                  set_prop t1 "meta"
                    (set_prop m "source"
                       (set_prop src "upstream"
                          (or_null (js_or (Some upstream) (prop src "upstream")))))
                else t1
            | None => t1
            end
        | None => t1
        end in
      Some (match prop t2 "meta" with
            | Some m =>
                if truthy (Some m) && negb (truthy (prop m "fileCreated"))
                then set_prop t2 "meta" (set_prop m "fileCreated" (VStr now))
                else t2
            | None => t2
            end)
  end.

Definition loadTemplateBase (regionId : jsval) (upstream : value) : M value :=
  now <- isoNow ;;
  tpl <- read_template regionId upstream now ;;
  match template_base tpl regionId upstream now with
  | Some t => ret t
  | None => throw (js_Error "Cannot set properties of null (setting 'regionId')")
  end.

(** What [updateStatusOnError] does to [base]; [None] when the assignment
    to [base.meta.source.upstream] throws. *)
Definition error_document (base : value) (upstream : value) (code : Z) (message now : string)
  : option value :=
  let prevAttempt := prev_attempt base in
  let base1 := set_prop base "lastUpdateStatus"
                 (status_block "error" false code (VStr message) now (js_add prevAttempt 1)) in
  match prop base1 "meta" with
  | Some meta =>
      if truthy (Some meta) then
        let meta1 := if negb (truthy (prop meta "fileCreated"))
                     then set_prop meta "fileCreated" (VStr now) else meta in
        if truthy (Some upstream) then
          let src := or_null (js_or (prop meta1 "source") (Some (VObj [("type", VStr "proxy")]))) in
          let meta2 := set_prop meta1 "source" src in
          match read_back meta1 "source" src with
          | Some s_ =>
              Some (set_prop base1 "meta"
                      (set_prop meta2 "source" (set_prop s_ "upstream" upstream)))
          | None => None
          end
        else Some (set_prop base1 "meta" meta1)
      else Some base1
  | None => Some base1
  end.

Definition updateStatusOnError (existingObj : value) (regionId : jsval) (upstream : value)
    (code : Z) (message : string) : M value :=
  now <- isoNow ;;
  base <- (if truthy (Some existingObj) then ret existingObj
           else loadTemplateBase regionId upstream) ;;
  match error_document base upstream code message now with
  | Some doc => ret doc
  | None => throw (js_Error "Cannot set properties of undefined (setting 'upstream')")
  end.

(** The object literal [normalize] returns. *)
Definition fresh_document (regionId upstream : value) (now : string)
    (dataOut : value) (dataEmpty : bool) (dataEmptyReason : value) (rawFactIncluded : bool)
  : value :=
  VObj [("regionId", regionId);
        ("regionName", VNull);
        ("regionType", VNull);
        ("lastUpdated", VStr now);
        ("data", dataOut);
        ("lastUpdateStatus", status_block "parsed" true 200 VNull now 1);
        ("meta",
          VObj [("schemaVersion", VStr "1.0.0");
                ("fileCreated", VStr now);
                ("timezone", VStr "Europe/Kyiv");
                ("source",
                  VObj [("type", VStr "proxy");
                        ("upstream", or_null (Some upstream));
                        ("notes", VStr "Extracted from DisconSchedule.fact in upstream HTML")]);
                ("ttlSeconds", VNum 300);
                ("nextScheduledFetch", VNull);
                ("etag", VNull);
                ("contentHash", VNull);
                ("dataEmpty", VBool dataEmpty);
                ("dataEmptyReason", dataEmptyReason);
                ("rawFactIncluded", VBool rawFactIncluded)])].

(** [Object.prototype.hasOwnProperty.call(rawObj, 'data') ? rawObj.data
    : undefined], for a [rawObj] other than [null]. *)
Definition data_field (rawObj : value) : jsval :=
  let hasData := match rawObj with
                 | VObj fs => match lookup "data" fs with Some _ => true | None => false end
                 | _ => false
                 end in
  if hasData then prop rawObj "data" else undefined.

(** The branches of [normalize]: [dataOut] and [dataEmptyReason]. *)
Definition normalized_data (rawObj : value) : value * value :=
  match data_field rawObj with
  | Some VNull | None => (rawObj, VStr "no-data-field-present")
  | Some d =>
      match extractGroupsWithIso h (data_field rawObj) with
      | VNull => (d, VStr "stored-as-is-unrecognized-structure")
      | groups => (groups, VNull)
      end
  end.

(** The document [normalize] returns for a [rawObj] other than [null];
    [dataEmpty] is [false] on every branch. *)
Definition normalized (regionId : value) (upstream : value) (rawObj : value) (now : string)
  : value :=
  fresh_document regionId upstream now
    (fst (normalized_data rawObj)) false (snd (normalized_data rawObj))
    (match data_field rawObj with None => true | Some _ => false end).

(** [normalize(regionId, upstream, rawObj)]; [hasOwnProperty.call] throws on
    [null]. *)
Definition normalize (regionId : value) (upstream : value) (rawObj : value) : M value :=
  now <- isoNow ;;
  match rawObj with
  | VNull => throw (js_Error "Cannot convert undefined or null to object")
  | _ => ret (normalized regionId upstream rawObj now)
  end.

(** The merge of [main]: the fresh document [outObj] takes the creation
    stamp and the attempt count of [existing], then the hash and the
    emptiness flags. *)
Definition merge_parsed (existing outObj : value) (now hash : string) : value :=
  let outObj1 :=
    if truthy (Some existing) && truthy (prop existing "meta") then
      set_meta outObj "fileCreated"
        (or_null (js_or (prop_of (prop existing "meta") "fileCreated")
                        (prop_of (prop outObj "meta") "fileCreated")))
    else outObj in
  let prevAttempt := if truthy (Some existing) then prev_attempt existing else 0 in
  let outObj2 := set_prop outObj1 "lastUpdateStatus"
                   (status_block "parsed" true 200 VNull now (js_add prevAttempt 1)) in
  let outObj3 := set_meta outObj2 "contentHash" (VStr hash) in
  let dataEmpty := data_is_empty (prop outObj3 "data") in
  let outObj4 := set_meta outObj3 "dataEmpty" (VBool dataEmpty) in
  if dataEmpty && negb (truthy (prop_of (prop outObj4 "meta") "dataEmptyReason"))
  then set_meta outObj4 "dataEmptyReason" (VStr "empty-data-after-parse")
  else outObj4.

(** The block each failed stage of [main] runs: merge the failure into the
    document, write it, and leave with status 0. *)
Definition skip_gracefully (regionId : jsval) (upstream : value) (code : Z) (message : string)
  : M unit :=
  existing <- loadExisting ;;
  errObj <- updateStatusOnError existing regionId upstream code message ;;
  writeFileAtomic errObj ;;;
  process_exit 0.

Definition usage_ok (args : Args) : bool :=
  truthy (str (region args)) && truthy (str (arg_input args)) && truthy (str (arg_output args)).

(** [args.input], as it shows in the messages. *)
Definition input_path (args : Args) : string := js_String_opt (str (arg_input args)).

Definition main (argv : list string) : M unit :=
  let args := parseArgs argv in
  if negb (usage_ok args) then process_exit 2
  else
    let regionId := str (region args) in
    let upstream_ := or_null (str (upstream args)) in
    let path := input_path args in
    present <- existsSync ;;
    if negb present then
      skip_gracefully regionId upstream_ 404 ("Input not found: " ++ path)
    else
      html <- readFile ;;
      match extractFact html with
      | ExtractError error =>
          skip_gracefully regionId upstream_ 422 (error ++ " in " ++ path)
      | Extracted jsonLike =>
          match tryParseObject jsonLike with
          | ParseThrows e => throw e
          | ParseError error =>
              skip_gracefully regionId upstream_ 422 (error ++ " in " ++ path)
          | Parsed v method =>
              now <- isoNow ;;
              outObj <- normalize (or_null regionId) upstream_ v ;;
              existing <- loadExisting ;;
              writeFileAtomic (merge_parsed existing outObj now (sha256 h jsonLike))
          end
      end.

(** The handler of the module's [catch]: record the crash if possible. *)
Definition on_crash (argv : list string) (message : string) : M unit :=
  let args := parseArgs argv in
  let regionId := str (region args) in
  let upstream_ := or_null (str (upstream args)) in
  existing <- (if truthy (str (arg_output args)) then loadExisting else ret VNull) ;;
  errObj <- updateStatusOnError existing regionId upstream_ 500
              ("parse_fact crashed: " ++ message) ;;
  if truthy (str (arg_output args)) then writeFileAtomic errObj else ret tt.

(** The module body: [try { main() } catch (e) { ...; process.exit(0) }].
    The handler reads [e.message] before its own [try]: when [e] is [null]
    or [undefined] that read throws, and nothing catches it. *)
Definition script (argv : list string) : M unit :=
  try_catch (main argv)
    (fun e =>
       match message_of e with
       | Some message =>
           try_catch (on_crash argv message) (fun _ => ret tt) ;;;
           process_exit 0
       | None => throw (nullish_read e)
       end).

(** One invocation: the exit status of the process and the world it
    leaves.  A script that runs to its end exits with 0, an exception
    nothing catches makes node exit with 1. *)
Definition invoke (argv : list string) (w : World) : Z * World :=
  match script argv w with
  | (Ret _, w') => (0, w')
  | (Exit s, w') => (s, w')
  | (Throw _, w') => (1, w')
  end.

End Engine.

(** ** A host to compute with

    [JSON.parse], [Function] and [Number] on a fragment of their input
    language: white space, objects, arrays, strings without escapes,
    decimal integers, [true], [false], [null], and for [Function] also
    single-quoted strings, bare keys, [+], parentheses and calls of the
    globals [String] and [Boolean].  On that fragment the functions agree
    with node.  Text outside of it is answered as text that does not
    parse, and the message of a syntax error is cut down to
    "Unexpected token". *)
Module Fragment.

Inductive token : Type :=
| TLBrace | TRBrace | TLBrack | TRBrack | TLParen | TRParen
| TColon | TComma | TPlus
| TMinus (tight : bool)   (* followed at once by a digit *)
| TStr (double : bool) (s : string)
| TNum (n : Z)
| TIdent (s : string).

Definition is_space (c : ascii) : bool :=
  ((code c =? 9) || (code c =? 10) || (code c =? 13) || (code c =? 32))%N.

Definition is_ident_char (c : ascii) : bool :=
  let n := code c in
  (((65 <=? n) && (n <=? 90)) || ((97 <=? n) && (n <=? 122)) || (n =? 95) || (n =? 36)
   || ((48 <=? n) && (n <=? 57)))%N.

(** The text up to the closing quote [q], and what follows the quote. *)
Fixpoint until_quote (q : ascii) (s : string) : option (string * string) :=
  match s with
  | EmptyString => None
  | String c r =>
      if Ascii.eqb c q then Some (EmptyString, r)
      else if Ascii.eqb c "\"%char || (code c <? 32)%N then None
      else match until_quote q r with
           | Some (body, rest) => Some (String c body, rest)
           | None => None
           end
  end.

Fixpoint take_while (p : ascii -> bool) (s : string) : string * string :=
  match s with
  | String c r => if p c then let (a, b) := take_while p r in (String c a, b)
                  else (EmptyString, s)
  | EmptyString => (EmptyString, EmptyString)
  end.

Definition digits_value (s : string) : Z :=
  match NilZero.int_of_string s with Some i => Z.of_int i | None => 0 end.

Fixpoint tokens (fuel : nat) (s : string) : option (list token) :=
  match fuel with
  | O => None
  | S f =>
      match s with
      | EmptyString => Some []
      | String c r =>
          let one := fun t => option_map (cons t) (tokens f r) in
          if is_space c then tokens f r
          else if Ascii.eqb c "{"%char then one TLBrace
          else if Ascii.eqb c "}"%char then one TRBrace
          else if Ascii.eqb c "["%char then one TLBrack
          else if Ascii.eqb c "]"%char then one TRBrack
          else if Ascii.eqb c "("%char then one TLParen
          else if Ascii.eqb c ")"%char then one TRParen
          else if Ascii.eqb c ":"%char then one TColon
          else if Ascii.eqb c ","%char then one TComma
          else if Ascii.eqb c "+"%char then one TPlus
          else if Ascii.eqb c "-"%char then
            one (TMinus (match r with String d _ => is_digit d | EmptyString => false end))
          else if (code c =? 34)%N || Ascii.eqb c "'"%char then
            match until_quote c r with
            | Some (body, rest) => option_map (cons (TStr (code c =? 34)%N body)) (tokens f rest)
            | None => None
            end
          else if is_digit c then
            let (ds, rest) := take_while is_digit s in
            match rest with
            | String d _ => if is_ident_char d || Ascii.eqb d "."%char then None
                            else if Ascii.eqb c "0"%char && (1 <? String.length ds)%nat then None
                            else option_map (cons (TNum (round_double (digits_value ds))))
                                   (tokens f rest)
            | EmptyString => if Ascii.eqb c "0"%char && (1 <? String.length ds)%nat then None
                             else Some [TNum (round_double (digits_value ds))]
            end
          else if is_ident_char c then
            let (name, rest) := take_while is_ident_char s in
            option_map (cons (TIdent name)) (tokens f rest)
          else None
      end
  end.

Definition tokenize (s : string) : option (list token) := tokens (S (String.length s)) s.

Inductive key : Type :=
| KStr (double : bool) (s : string)
| KIdent (s : string)
| KNum (n : Z).

Inductive expr : Type :=
| ENum (n : Z)
| EStr (double : bool) (s : string)
| EIdent (name : string)
| ENeg (tight : bool) (e : expr)
| EParen (e : expr)
| EAdd (a b : expr)
| ECall (callee : string) (args : list expr)
| EArr (items : list expr)
| EObj (props : list (key * expr)).

(** Recursive descent: a sum of terms; a term is a literal, an identifier,
    a call, a bracketed list, a braced list of properties or a
    parenthesised sum. *)
Fixpoint parse_sum (fuel : nat) (ts : list token) : option (expr * list token) :=
  match fuel with
  | O => None
  | S f =>
      let term : list token -> option (expr * list token) := fun ts =>
        match ts with
        | TNum n :: r => Some (ENum n, r)
        | TMinus t :: TNum n :: r => Some (ENeg t (ENum n), r)
        | TStr d s :: r => Some (EStr d s, r)
        | TIdent name :: TLParen :: TRParen :: r => Some (ECall name [], r)
        | TIdent name :: TLParen :: r =>
            match parse_sum f r with
            | Some (a, TRParen :: r') => Some (ECall name [a], r')
            | _ => None
            end
        | TIdent name :: r => Some (EIdent name, r)
        | TLParen :: r =>
            match parse_sum f r with
            | Some (e, TRParen :: r') => Some (EParen e, r')
            | _ => None
            end
        | TLBrack :: TRBrack :: r => Some (EArr [], r)
        | TLBrack :: r =>
            (fix items (n : nat) (ts : list token) (acc : list expr) :=
               match n with
               | O => None
               | S n' =>
                   match parse_sum f ts with
                   | Some (e, TComma :: r') => items n' r' (acc ++ [e])%list
                   | Some (e, TRBrack :: r') => Some (EArr (acc ++ [e])%list, r')
                   | _ => None
                   end
               end) f r []
        | TLBrace :: TRBrace :: r => Some (EObj [], r)
        | TLBrace :: r =>
            (fix props (n : nat) (ts : list token) (acc : list (key * expr)) :=
               match n with
               | O => None
               | S n' =>
                   let keyed :=
                     match ts with
                     | TStr d s :: TColon :: r' => Some (KStr d s, r')
                     | TIdent s :: TColon :: r' => Some (KIdent s, r')
                     | TNum k :: TColon :: r' => Some (KNum k, r')
                     | _ => None
                     end in
                   match keyed with
                   | Some (k, r') =>
                       match parse_sum f r' with
                       | Some (e, TComma :: r'') => props n' r'' (acc ++ [(k, e)])%list
                       | Some (e, TRBrace :: r'') => Some (EObj (acc ++ [(k, e)])%list, r'')
                       | _ => None
                       end
                   | None => None
                   end
               end) f r []
        | _ => None
        end in
      match term ts with
      | Some (a, r) =>
          (fix more (n : nat) (a : expr) (ts : list token) :=
             match n, ts with
             | S n', TPlus :: r' =>
                 match term r' with
                 | Some (b, r'') => more n' (EAdd a b) r''
                 | None => None
                 end
             | _, _ => Some (a, ts)
             end) f a r
      | None => None
      end
  end.

(** The expression a text is, when all of the text is one expression. *)
Definition parse (s : string) : option expr :=
  match tokenize s with
  | Some ts =>
      match parse_sum (S (List.length ts)) ts with
      | Some (e, []) => Some e
      | _ => None
      end
  | None => None
  end.

Definition key_name (k : key) : string :=
  match k with
  | KStr _ s => s
  | KIdent s => s
  | KNum n => string_of_Z n
  end.

Fixpoint all_digits (s : string) : bool :=
  match s with
  | EmptyString => true
  | String c r => is_digit c && all_digits r
  end.

(** How a key counts in the order of the properties: an array index by
    its number, any other key by [None]. *)
Definition index_key (k : string) : option Z :=
  match k with
  | EmptyString => None
  | String c r =>
      if all_digits k && negb (Ascii.eqb c "0"%char && negb (r =? EmptyString)%string)
      then Some (digits_value k) else None
  end.

Fixpoint insert_index (n : Z) (k : string) (v : value) (fs : list (string * value))
  : list (string * value) :=
  match fs with
  | [] => [(k, v)]
  | (k', v') :: r =>
      match index_key k' with
      | Some n' => if n <? n' then (k, v) :: fs else (k', v') :: insert_index n k v r
      | None => (k, v) :: fs
      end
  end.

(** A property defined by an object literal or by [JSON.parse]: a key seen
    before keeps its place and takes the new value; a new array index goes
    among the indices, in ascending order, ahead of the other keys; any
    other new key goes last.  Keys outside the fragment ([None]):
    [__proto__], and the numbers from 2^32 - 1 on. *)
Definition define (k : string) (v : value) (fs : list (string * value))
  : option (list (string * value)) :=
  if (k =? "__proto__")%string then None
  else match lookup k fs with
       | Some _ => Some (assign k v fs)
       | None =>
           match index_key k with
           | Some n => if n <? 4294967295 then Some (insert_index n k v fs) else None
           | None => Some (fs ++ [(k, v)])%list
           end
       end.

(** Strict JSON: double-quoted strings and keys, literals only. *)
Fixpoint json_value (e : expr) : option value :=
  match e with
  | ENum n => Some (VNum n)
  | ENeg true (ENum n) => Some (VNum (- n))
  | EStr true s => Some (VStr s)
  | EIdent "true" => Some (VBool true)
  | EIdent "false" => Some (VBool false)
  | EIdent "null" => Some VNull
  | EArr items =>
      option_map VArr
        (fold_right (fun e acc =>
                       match json_value e, acc with
                       | Some v, Some vs => Some (v :: vs)
                       | _, _ => None
                       end) (Some []) items)
  | EObj props =>
      option_map VObj
        (fold_left (fun acc p =>
                      match acc, fst p, json_value (snd p) with
                      | Some fs, KStr true k, Some v => define k v fs
                      | _, _, _ => None
                      end) props (Some []))
  | _ => None
  end.

Definition JSON_parse (text : string) : option value :=
  match parse text with
  | Some e => json_value e
  | None => None
  end.

(** [a + b]. *)
Definition add (a b : value) : value :=
  let prim := fun v => match v with
                       | VArr _ | VObj _ => VStr (js_String v)
                       | _ => v
                       end in
  let to_num := fun v => match v with
                         | VNum n => n
                         | VBool true => 1
                         | _ => 0
                         end in
  match prim a, prim b with
  | VStr x, y => VStr (x ++ js_String y)
  | x, VStr y => VStr (js_String x ++ y)
  | x, y => VNum (js_add (to_num x) (to_num y))
  end.

(** The value of an expression of the fragment in the global scope; no
    expression of the fragment throws.  [None] outside of the fragment. *)
Fixpoint eval (e : expr) : option value :=
  match e with
  | ENum n => Some (VNum n)
  | EStr _ s => Some (VStr s)
  | EIdent "true" => Some (VBool true)
  | EIdent "false" => Some (VBool false)
  | EIdent "null" => Some VNull
  | EIdent _ => None
  | ENeg _ (ENum n) => Some (VNum (- n))
  | ENeg _ _ => None
  | EParen a => eval a
  | EAdd a b =>
      match eval a, eval b with
      | Some x, Some y => Some (add x y)
      | _, _ => None
      end
  | ECall "String" [a] => option_map (fun x => VStr (js_String x)) (eval a)
  | ECall "Boolean" [a] => option_map (fun x => VBool (truthy (Some x))) (eval a)
  | ECall "String" [] => Some (VStr EmptyString)
  | ECall "Boolean" [] => Some (VBool false)
  | ECall _ _ => None
  | EArr items =>
      option_map VArr
        (fold_right (fun e acc =>
                       match eval e, acc with
                       | Some v, Some vs => Some (v :: vs)
                       | _, _ => None
                       end) (Some []) items)
  | EObj props =>
      option_map VObj
        (fold_left (fun acc p =>
                      match acc, eval (snd p) with
                      | Some fs, Some v => define (key_name (fst p)) v fs
                      | _, _ => None
                      end) props (Some []))
  end.


Definition ends_with (suffix s : string) : bool :=
  (String.length suffix <=? String.length s)%nat
  && (substring (String.length s - String.length suffix) (String.length suffix) s =? suffix)%string.

(** [Function(body)()] for a body of the form
    ["use strict"; return <expression>;]. *)
Definition Function_call (body : string) : evaluation :=
  let head := dq ++ "use strict" ++ dq ++ "; return " in
  if starts_with head body && ends_with ";" body then
    let middle := substring (String.length head)
                    (String.length body - String.length head - 1) body in
    match parse middle with
    | Some e =>
        match eval e with
        | Some v => Returned v
        | None => Thrown (js_Error "Unexpected token")
        end
    | None => Thrown (js_Error "Unexpected token")
    end
  else Thrown (js_Error "Unexpected token").

(** [Number(s)] on a run of decimal digits, and on the empty string. *)
Definition Number_of (s : string) : num :=
  let (ds, rest) := take_while is_digit s in
  if (rest =? EmptyString)%string then Some (digits_value ds) else NaN.

(** A host made of the functions above, a digest, a zone offset and a
    clock. *)
Definition host (digest : string -> string) (offset : Z -> Z) (clk : nat -> Z) : Host :=
  Build_Host JSON_parse Function_call digest Number_of offset clk.

End Fragment.

(** ** Vocabulary of the statements *)

(** A run of whitespace characters. *)
Inductive blank : string -> Prop :=
| blank_nil : blank EmptyString
| blank_cons : forall u s, In u whitespace -> blank s -> blank (u ++ s).

Definition brace_delta (c : ascii) : Z :=
  if Ascii.eqb c "{"%char then 1 else if Ascii.eqb c "}"%char then -1 else 0.

(** Opening braces minus closing braces, every brace counted. *)
Fixpoint brace_depth (s : string) : Z :=
  match s with
  | EmptyString => 0
  | String c r => brace_delta c + brace_depth r
  end.

(** [html] holds the marker right after [pre], and nowhere earlier. *)
Definition first_marker (pre post html : string) : Prop :=
  html = pre ++ marker ++ post /\
  forall pre' post', html = pre' ++ marker ++ post' -> (String.length pre <= String.length pre')%nat.

(** [span] ends where the depth first returns to zero. *)
Definition closes (span : string) : Prop :=
  brace_depth span = 0 /\
  forall p q, span = p ++ q -> p <> EmptyString -> q <> EmptyString -> brace_depth p <> 0.

(** The depth never returns to zero in [rest]. *)
Definition never_closes (rest : string) : Prop :=
  forall p q, rest = p ++ q -> p <> EmptyString -> brace_depth p <> 0.

(** A stage of the pipeline fails on the input file: the status code and
    the message [main] reports. *)
Inductive stage_failure (h : Host) (path : string) : in_file -> Z -> string -> Prop :=
| input_missing :
    stage_failure h path InMissing 404 ("Input not found: " ++ path)
| extraction_failed : forall html error,
    extractFact html = ExtractError error ->
    stage_failure h path (InText html) 422 (error ++ " in " ++ path)
| parse_failed : forall html jsonLike error,
    extractFact html = Extracted jsonLike ->
    tryParseObject h jsonLike = ParseError error ->
    stage_failure h path (InText html) 422 (error ++ " in " ++ path).

(** The world after one more reading of the clock. *)
Definition tick (w : World) : World :=
  {| input := input w; output := output w; template := template w; ticks := S (ticks w) |}.

(** The k-th reading of the clock, as [isoNow] returns it. *)
Definition reading (h : Host) (k : nat) : string := toISOString (clock h k).

(** [doc.meta.k] and [doc.lastUpdateStatus.k] of a document. *)
Definition meta_field (doc : value) (k : string) : jsval := prop_of (prop doc "meta") k.
Definition status_field (doc : value) (k : string) : jsval :=
  prop_of (prop doc "lastUpdateStatus") k.

(** What [loadExisting] finds in a world. *)
Definition loaded (w : World) : value :=
  match output w with OutJson doc => doc | _ => VNull end.

(** A document: an object whose [meta], if it has one, is an object. *)
Definition document_shape (v : value) : bool :=
  match v with
  | VObj fs => match lookup "meta" fs with
               | Some (VObj _) | None => true
               | Some _ => false
               end
  | _ => false
  end.

(** The prior output is a document, or there is none (the file is missing
    or corrupt) and the template, if there is one, is a document. *)
Definition prior_shape (w : World) : bool :=
  match output w with
  | OutJson doc => document_shape doc
  | _ => match template w with
         | None => true
         | Some t => document_shape t
         end
  end.





Definition with_input (w : World) (i : in_file) : World :=
  {| input := i; output := output w; template := template w; ticks := ticks w |}.

(** A sequence of invocations for one region: before each one the input
    file is what the fetcher left. *)
Fixpoint invocations (h : Host) (argv : list string) (inputs : list in_file) (w : World)
  : World :=
  match inputs with
  | [] => w
  | i :: rest => invocations h argv rest (snd (invoke h argv (with_input w i)))
  end.

(** The parsed value carries the nested field that holds the payload:
    [dataField !== undefined && dataField !== null] in [normalize]. *)
Definition carries_payload (rawObj : value) : bool :=
  match rawObj with
  | VObj fs => match lookup "data" fs with
               | None | Some VNull => false
               | Some _ => true
               end
  | _ => false
  end.

(** What the loop leaves under a group key [k]. *)
Definition group_image (h : Host) (v : value) : value :=
  match v with
  | VArr entries => VArr (map (normalize_entry h) entries)
  | _ => v
  end.

(** The creation stamp [main] gives the merged document. *)
Definition merged_stamp (existing : value) (now : string) : value :=
  if truthy (Some existing) && truthy (prop existing "meta") then
    or_null (js_or (meta_field existing "fileCreated") (Some (VStr now)))
  else VStr now.


(** [a[i]]. *)
Definition at_index (a : jsval) (i : nat) : jsval :=
  match a with
  | Some (VArr xs) => nth_error xs i
  | _ => None
  end.


(** ** Sample inputs *)

Module Sample.

Definition digest (text : string) : string := "sha256 of " ++ text.

(** A clock that starts at 2025-03-30T00:00:00Z and advances by a second
    at each reading. *)
Definition clk (k : nat) : Z := 1743292800000 + Z.of_nat k * 1000.

(** The zone fixed at UTC+2. *)
Definition host : Host := Fragment.host digest (fun _ => 120) clk.

Definition argv : list string :=
  ["node"; "scripts/parse_fact.js"; "--region"; "kyiv"; "--in"; "outputs/kyiv.html";
   "--out"; "data/kyiv.json"; "--upstream"; "https://example.org/shutdowns"; "--pretty"].

Definition html : string :=
  sq2dq "<script>DisconSchedule.fact = {'GPV1.1':[{'date':'2025-03-30','start':'2:00','end':'4:00'}]};</script>".

Definition html_wrapped : string :=
  sq2dq "<script>DisconSchedule.fact = {'data':{'GPV1.1':[{'date':'2025-03-30','start':'2:00','end':'4:00'}]}};</script>".

Definition prior_fields : list (string * value) :=
  [("regionId", VStr "kyiv");
   ("lastUpdated", VStr "2025-03-29T10:00:00.000Z");
   ("data", VObj [("GPV1.1", VArr [])]);
   ("lastUpdateStatus", status_block "parsed" true 200 VNull "2025-03-29T10:00:00.000Z" 7);
   ("meta", VObj [("fileCreated", VStr "2025-01-01T00:00:00.000Z");
                  ("contentHash", VStr "abc")])].


Definition world (i : in_file) (o : out_file) : World :=
  {| input := i; output := o; template := None; ticks := 0 |}.

Definition entry : value :=
  VObj [("date", VStr "2025-03-30"); ("start", VStr "2:00"); ("end", VStr "4:00")].

(** The balanced span of [html]. *)
Definition span : string :=
  sq2dq "{'GPV1.1':[{'date':'2025-03-30','start':'2:00','end':'4:00'}]}".


(** An entry whose times are not of the form H:MM or HH:MM. *)
Definition odd_entry : value :=
  VObj [("date", VStr "2025-03-30"); ("start", VStr "2 am"); ("end", VStr "4 am")].

(** The value of the literal in [html]. *)
Definition bare_fact : value := VObj [("GPV1.1", VArr [entry])].

(** A parsed value without the nested [data] field. *)
Definition bare : value :=
  VObj [("GPV1.1", VArr [entry]); ("note", VStr "x")].

(** A parsed value with the payload under [data]. *)
Definition wrapped : value :=
  VObj [("data", VObj [("GPV1.1", VArr [entry; odd_entry]); ("note", VStr "x")])].

End Sample.

(** ** Vocabulary of the further properties *)

(** ** Checking a property over a range of integers *)







(** ** The command line, item by item *)

(** The options that take a value. *)
Inductive flag : Type := FRegion | FIn | FOut | FUpstream.

Definition flag_text (f : flag) : string :=
  match f with
  | FRegion => "--region"
  | FIn => "--in"
  | FOut => "--out"
  | FUpstream => "--upstream"
  end.

(** What a command line is made of: an option with the word after it,
    the switch [--pretty], any other word. *)
Inductive cli_item : Type :=
| Opt (f : flag) (v : string)
| Pretty
| Other (word : string).

Definition render (i : cli_item) : list string :=
  match i with
  | Opt f v => [flag_text f; v]
  | Pretty => ["--pretty"]
  | Other word => [word]
  end.

Definition is_flag (s : string) : bool :=
  ((s =? "--region") || (s =? "--in") || (s =? "--out") || (s =? "--upstream")
   || (s =? "--pretty"))%string.

(** [args.<f> = v]. *)
Definition set_flag (f : flag) (v : option string) (args : Args) : Args :=
  match f with
  | FRegion => {| region := v; arg_input := arg_input args; arg_output := arg_output args;
                  upstream := upstream args; pretty := pretty args |}
  | FIn => {| region := region args; arg_input := v; arg_output := arg_output args;
              upstream := upstream args; pretty := pretty args |}
  | FOut => {| region := region args; arg_input := arg_input args; arg_output := v;
               upstream := upstream args; pretty := pretty args |}
  | FUpstream => {| region := region args; arg_input := arg_input args;
                    arg_output := arg_output args; upstream := v; pretty := pretty args |}
  end.

Definition apply_item (args : Args) (i : cli_item) : Args :=
  match i with
  | Opt f v => set_flag f (Some v) args
  | Pretty => {| region := region args; arg_input := arg_input args;
                 arg_output := arg_output args; upstream := upstream args; pretty := true |}
  | Other _ => args
  end.

(** ** The driver [scripts/parse_regions.sh] *)





(** ** The groups of a payload *)

(** The properties of [data] under a group key, each value as the loop
    leaves it. *)
Definition group_images (h : Host) (fs : list (string * value)) : list (string * value) :=
  map (fun p => (fst p, group_image h (snd p)))
      (filter (fun p => groupKeyRe (fst p)) fs).

(** No property name occurs twice: what an object that JSON.parse or an
    object literal has built looks like. *)
Definition distinct_keys (data : jsval) : Prop :=
  match data with
  | Some (VObj fs) => NoDup (map fst fs)
  | _ => True
  end.


(** ** Counting the attempts *)

(** The output file holds a document whose status block counts [n]
    attempts. *)
Definition counted (n : Z) (o : out_file) : Prop :=
  exists doc, o = OutJson doc /\ document_shape doc = true
              /\ status_field doc "attempt" = Some (VNum n).

(** ** The helper [updateMetaFromExisting] *)

(** [updateMetaFromExisting(existing, now)]: [undefined] without a prior
    document, else its creation stamp if it has one, else [now].  No
    caller is left in the script: [main] does the same in line. *)
Definition updateMetaFromExisting (existing : value) (now : string) : jsval :=
  if negb (truthy (Some existing)) then undefined
  else if truthy (prop existing "meta")
          && truthy (prop_of (prop existing "meta") "fileCreated")
       then prop_of (prop existing "meta") "fileCreated"
       else Some (VStr now).

(** ** The first document of a region *)



(** ** Runs that fail *)


(** ** Runs that evaluate nothing *)

(** The input file is one the fallback evaluator is not run on: it is
    missing or cannot be read, or no span is found in it, or the span is
    strict JSON. *)
Definition no_evaluation (h : Host) (i : in_file) : bool :=
  match i with
  | InText html =>
      match extractFact html with
      | Extracted jsonLike =>
          match JSON_parse h jsonLike with Some _ => true | None => false end
      | ExtractError _ => true
      end
  | _ => true
  end.

(** ** The document of a successful run *)


(** * Properties *)

(** ** The definitions at work *)

Example extractFact_nested :
  extractFact "<script>DisconSchedule.fact =  {a:{b:1}}; x = {}</script>" = Extracted "{a:{b:1}}".
Proof. reflexivity. Qed.

Example extractFact_bracket :
  extractFact "DisconSchedule.fact = [1]" = ExtractError UnexpectedToken.
Proof. reflexivity. Qed.

Example extractFact_quoted_brace :
  extractFact "DisconSchedule.fact = {a:'}'}" = Extracted "{a:'}".
Proof. reflexivity. Qed.

Example extractFact_open :
  extractFact "DisconSchedule.fact ={a:{}" = ExtractError UnbalancedBraces.
Proof. reflexivity. Qed.

Example extractFact_no_marker :
  extractFact "DisconSchedule.fact" = ExtractError MarkerNotFound.
Proof. reflexivity. Qed.

Example extractFact_nbsp :
  extractFact ("DisconSchedule.fact =" ++ bytes [194; 160] ++ "{}") = Extracted "{}".
Proof. reflexivity. Qed.

Example groupKeyRe_examples :
  map groupKeyRe ["GPV1.1"; "gpv12.30"; "G1.1"; "GPV1.1x"; "GPV1"; "1.1"]
  = [true; true; false; false; false; false].
Proof. reflexivity. Qed.

(** "АЯ1.1", in Cyrillic. *)
Example groupKeyRe_cyrillic : groupKeyRe (bytes [208; 144; 208; 175; 49; 46; 49]) = true.
Proof. reflexivity. Qed.

Example timeRe_examples :
  map timeRe ["2:00"; "02:00"; "2:0"; "002:00"; "2.00"; "24:99"]
  = [true; true; false; false; false; true].
Proof. reflexivity. Qed.

Example js_String_array : js_String (VArr [VStr "2:00"; VNull; VNum (-3)]) = "2:00,,-3".
Proof. reflexivity. Qed.

Example toISOString_epoch : toISOString 0 = "1970-01-01T00:00:00.000Z".
Proof. reflexivity. Qed.

Example toISOString_before_epoch : toISOString (-1) = "1969-12-31T23:59:59.999Z".
Proof. reflexivity. Qed.

Example Date_UTC_leap_day : Date_UTC (Some 2024) 1 29 12 30 0 = Some 1709209800000.
Proof. reflexivity. Qed.

Example Date_UTC_month_overflow :
  Date_UTC (Some 2024) 12 1 0 0 0 = Date_UTC (Some 2025) 0 1 0 0 0.
Proof. reflexivity. Qed.

Example toKyivIso_fixed_zone :
  toKyivIso Sample.host "2025-03-30" "02:00" = Some "2025-03-30T00:00:00+02:00".
Proof. vm_compute. reflexivity. Qed.

Example toKyivIso_invalid_date : toKyivIso Sample.host "tomorrow" "02:00" = None.
Proof. vm_compute. reflexivity. Qed.

Example parseArgs_sample :
  parseArgs Sample.argv
  = {| region := Some "kyiv"; arg_input := Some "outputs/kyiv.html";
       arg_output := Some "data/kyiv.json";
       upstream := Some "https://example.org/shutdowns"; pretty := true |}.
Proof. reflexivity. Qed.

Example parseArgs_missing_value :
  region (parseArgs ["node"; "parse_fact.js"; "--region"]) = None.
Proof. reflexivity. Qed.

Example JSON_parse_span : Fragment.JSON_parse Sample.span = Some Sample.bare_fact.
Proof. vm_compute. reflexivity. Qed.

Example JSON_parse_bare_key : Fragment.JSON_parse "{a:1}" = None.
Proof. vm_compute. reflexivity. Qed.

(** ** Strings *)

Lemma append_nil_r (s : string) : s ++ EmptyString = s.
Proof. induction s as [|c s IH]; simpl; [reflexivity | now rewrite IH]. Qed.

Lemma append_assoc (a b c : string) : (a ++ b) ++ c = a ++ (b ++ c).
Proof. induction a as [|x a IH]; simpl; [reflexivity | now rewrite IH]. Qed.

Lemma length_append (a b : string) :
  String.length (a ++ b) = (String.length a + String.length b)%nat.
Proof. induction a as [|x a IH]; simpl; [reflexivity | now rewrite IH]. Qed.

Lemma drop_append (a b : string) : drop (String.length a) (a ++ b) = b.
Proof. induction a as [|x a IH]; simpl; [reflexivity | exact IH]. Qed.

Lemma starts_with_append (a b : string) : starts_with a (a ++ b) = true.
Proof.
  induction a as [|x a IH]; simpl; [reflexivity|].
  now rewrite Ascii.eqb_refl, IH.
Qed.

Lemma starts_with_split (a s : string) : starts_with a s = true -> exists b, s = a ++ b.
Proof.
  revert s. induction a as [|x a IH]; intros s H.
  - exists s. reflexivity.
  - destruct s as [|y s]; simpl in H; [discriminate|].
    apply andb_true_iff in H. destruct H as [H1 H2].
    apply Ascii.eqb_eq in H1. subst y.
    destruct (IH s H2) as [b ->]. exists b. reflexivity.
Qed.

Lemma brace_depth_append (a b : string) :
  brace_depth (a ++ b) = brace_depth a + brace_depth b.
Proof. induction a as [|x a IH]; simpl; [reflexivity | rewrite IH; lia]. Qed.

(** ** The literal locator *)

Lemma after_marker_eq (html : string) :
  after_marker html =
  if starts_with marker html then Some (drop (String.length marker) html)
  else match html with
       | EmptyString => None
       | String _ r => after_marker r
       end.
Proof. destruct html; reflexivity. Qed.

Lemma after_marker_absent (html : string) :
  (forall pre post, html <> pre ++ marker ++ post) -> after_marker html = None.
Proof.
  induction html as [|c html IH]; intros H.
  - reflexivity.
  - rewrite after_marker_eq.
    destruct (starts_with marker (String c html)) eqn:E.
    + apply starts_with_split in E. destruct E as [b E].
      exfalso. apply (H EmptyString b). exact E.
    + apply IH. intros pre post ->. apply (H (String c pre) post). reflexivity.
Qed.

Lemma after_marker_first (pre post html : string) :
  first_marker pre post html -> after_marker html = Some post.
Proof.
  revert html. induction pre as [|c pre IH]; intros html [E Hmin].
  - change (html = marker ++ post) in E. subst html.
    rewrite after_marker_eq, starts_with_append, drop_append. reflexivity.
  - change (html = String c (pre ++ marker ++ post)) in E. subst html.
    rewrite after_marker_eq.
    destruct (starts_with marker (String c (pre ++ marker ++ post))) eqn:P.
    + apply starts_with_split in P. destruct P as [b P].
      specialize (Hmin EmptyString b P). simpl in Hmin. lia.
    + apply IH. split; [reflexivity|].
      intros pre' post' E'.
      assert (L : (String.length (String c pre) <= String.length (String c pre'))%nat).
      { apply (Hmin (String c pre') post'). change (String c pre' ++ marker ++ post')
          with (String c (pre' ++ marker ++ post')). now rewrite E'. }
      simpl in L. lia.
Qed.

Lemma ws_width_head (u s : string) :
  In u whitespace -> ws_width (u ++ s) = String.length u /\ (0 < String.length u)%nat.
Proof.
  intros H. unfold whitespace in H. simpl in H.
  repeat (destruct H as [<- | H]; [split; [reflexivity | simpl; lia] | ]).
  contradiction.
Qed.

Lemma skip_ws_fuel_blank (ws rest : string) :
  blank ws -> ws_width rest = O ->
  forall fuel, (String.length ws <= fuel)%nat -> skip_ws_fuel fuel (ws ++ rest) = rest.
Proof.
  intros B R. induction B as [|u s U B IH]; intros fuel L.
  - destruct fuel; simpl; [reflexivity | now rewrite R].
  - destruct (ws_width_head u (s ++ rest) U) as [W P].
    rewrite length_append in L.
    destruct fuel as [|f]; [lia|].
    rewrite append_assoc. cbn [skip_ws_fuel]. rewrite W.
    destruct (String.length u) as [|k] eqn:K; [lia|].
    rewrite <- K, drop_append. apply IH. lia.
Qed.

Lemma skip_ws_blank (ws rest : string) :
  blank ws -> ws_width rest = O -> skip_ws (ws ++ rest) = rest.
Proof.
  intros B R. apply skip_ws_fuel_blank; trivial.
  rewrite length_append. lia.
Qed.

Lemma scan_braces_step (c : ascii) (r : string) (depth : Z) :
  scan_braces (String c r) depth =
  if Ascii.eqb c "}"%char && (depth + brace_delta c =? 0) then Some (String c EmptyString)
  else option_map (String c) (scan_braces r (depth + brace_delta c)).
Proof.
  unfold brace_delta. cbn [scan_braces].
  destruct (Ascii.eqb_spec c "{"%char) as [->|N]; [reflexivity|].
  destruct (Ascii.eqb c "}"%char); simpl.
  - replace (depth + -1) with (depth - 1) by lia. reflexivity.
  - replace (depth + 0) with depth by lia. reflexivity.
Qed.

Lemma brace_delta_zero (c : ascii) (depth : Z) :
  1 <= depth -> depth + brace_delta c = 0 -> Ascii.eqb c "}"%char = true.
Proof.
  unfold brace_delta. destruct (Ascii.eqb c "{"%char); [lia|].
  destruct (Ascii.eqb c "}"%char); [reflexivity | lia].
Qed.

Lemma brace_delta_bound (c : ascii) : -1 <= brace_delta c <= 1.
Proof.
  unfold brace_delta. destruct (Ascii.eqb c "{"%char); [lia|].
  destruct (Ascii.eqb c "}"%char); lia.
Qed.

Lemma scan_braces_closes (span tail : string) :
  forall depth, 1 <= depth -> depth + brace_depth span = 0 ->
  (forall p q, span = p ++ q -> p <> EmptyString -> q <> EmptyString ->
               depth + brace_depth p <> 0) ->
  scan_braces (span ++ tail) depth = Some span.
Proof.
  induction span as [|c span IH]; intros depth D Z0 Hp.
  - simpl in Z0. lia.
  - change (String c span ++ tail) with (String c (span ++ tail)).
    rewrite scan_braces_step. cbn [brace_depth] in Z0.
    destruct span as [|c' span'].
    + (* the last character: it is the closing brace *)
      cbn [brace_depth] in Z0.
      rewrite (brace_delta_zero c depth) by lia.
      replace (depth + brace_delta c =? 0) with true by (symmetry; apply Z.eqb_eq; lia).
      reflexivity.
    + assert (Hc : depth + brace_delta c <> 0).
      { specialize (Hp (String c EmptyString) (String c' span') eq_refl).
        cbn [brace_depth] in Hp.
        assert (depth + (brace_delta c + 0) <> 0) by (apply Hp; discriminate). lia. }
      replace (depth + brace_delta c =? 0) with false by (symmetry; apply Z.eqb_neq; lia).
      rewrite andb_false_r.
      rewrite IH; [reflexivity | | lia | ].
      * pose proof (brace_delta_bound c). lia.
      * intros p q E Pn Qn.
        specialize (Hp (String c p) q). cbn [brace_depth] in Hp.
        assert (depth + (brace_delta c + brace_depth p) <> 0).
        { apply Hp; [simpl; now rewrite E | discriminate | exact Qn]. }
        lia.
Qed.

Lemma scan_braces_open (rest : string) :
  forall depth, 1 <= depth ->
  (forall p q, rest = p ++ q -> p <> EmptyString -> depth + brace_depth p <> 0) ->
  scan_braces rest depth = None.
Proof.
  induction rest as [|c rest IH]; intros depth D Hp.
  - reflexivity.
  - rewrite scan_braces_step.
    assert (Hc : depth + brace_delta c <> 0).
    { specialize (Hp (String c EmptyString) rest eq_refl).
      cbn [brace_depth] in Hp.
      assert (depth + (brace_delta c + 0) <> 0) by (apply Hp; discriminate). lia. }
    replace (depth + brace_delta c =? 0) with false by (symmetry; apply Z.eqb_neq; lia).
    rewrite andb_false_r.
    rewrite IH; [reflexivity | | ].
    + pose proof (brace_delta_bound c). lia.
    + intros p q E Pn.
      specialize (Hp (String c p) q). cbn [brace_depth] in Hp.
      assert (depth + (brace_delta c + brace_depth p) <> 0).
      { apply Hp; [simpl; now rewrite E | discriminate]. }
      lia.
Qed.

Lemma ws_width_brace (r : string) : ws_width (String "{"%char r) = O.
Proof. reflexivity. Qed.

Lemma extractFact_after (html rest : string) :
  after_marker html = Some rest ->
  extractFact html =
  match skip_ws rest with
  | String ch _ as body =>
      if Ascii.eqb ch "{"%char then
        match scan_braces body 0 with
        | Some jsonLike => Extracted jsonLike
        | None => ExtractError UnbalancedBraces
        end
      else ExtractError UnexpectedToken
  | EmptyString => ExtractError UnexpectedToken
  end.
Proof. intros H. unfold extractFact. now rewrite H. Qed.

(** C6.  [extractFact] on every HTML text: without the marker it fails with
    MarkerNotFound; when the first character after the marker that is not
    white space is not an opening brace (or there is none) it fails with
    UnexpectedToken; otherwise it counts every brace, quoted or not, and
    returns exactly the text from the opening brace to the brace at which
    the depth first returns to zero, or fails with UnbalancedBraces when
    the depth never does before the end of the input. *)
Theorem extractFact_contract (html : string) :
  ((forall pre post, html <> pre ++ marker ++ post) ->
     extractFact html = ExtractError MarkerNotFound)
  /\ (forall pre ws rest,
        first_marker pre (ws ++ rest) html -> blank ws -> ws_width rest = O ->
        (forall r, rest <> String "{"%char r) ->
        extractFact html = ExtractError UnexpectedToken)
  /\ (forall pre ws span tail,
        first_marker pre (ws ++ span ++ tail) html -> blank ws ->
        (exists r, span = String "{"%char r) -> closes span ->
        extractFact html = Extracted span)
  /\ (forall pre ws rest,
        first_marker pre (ws ++ rest) html -> blank ws ->
        (exists r, rest = String "{"%char r) -> never_closes rest ->
        extractFact html = ExtractError UnbalancedBraces).
Proof.
  repeat split.
  - intros H. unfold extractFact. now rewrite after_marker_absent.
  - intros pre ws rest F B W N.
    rewrite (extractFact_after _ _ (after_marker_first _ _ _ F)).
    rewrite skip_ws_blank by assumption.
    destruct rest as [|c r]; [reflexivity|].
    destruct (Ascii.eqb_spec c "{"%char) as [->|_]; [|reflexivity].
    now elim (N r).
  - intros pre ws span tail F B [r ->] [C0 Cp].
    rewrite (extractFact_after _ _ (after_marker_first _ _ _ F)).
    rewrite skip_ws_blank by (trivial; apply ws_width_brace).
    change (String "{"%char r ++ tail) with (String "{"%char (r ++ tail)).
    cbn [Ascii.eqb Bool.eqb]. rewrite scan_braces_step.
    cbn [brace_depth] in C0. change (brace_delta "{"%char) with 1 in *.
    cbn [Ascii.eqb Bool.eqb andb].
    rewrite scan_braces_closes; [reflexivity | lia | lia | ].
    intros p q E Pn Qn.
    specialize (Cp (String "{"%char p) q). cbn [brace_depth] in Cp.
    change (brace_delta "{"%char) with 1 in Cp.
    assert (1 + brace_depth p <> 0).
    { apply Cp; [simpl; now rewrite E | discriminate | exact Qn]. }
    lia.
  - intros pre ws rest F B [r ->] N.
    rewrite (extractFact_after _ _ (after_marker_first _ _ _ F)).
    rewrite skip_ws_blank by (trivial; apply ws_width_brace).
    cbn [Ascii.eqb Bool.eqb]. rewrite scan_braces_step.
    change (brace_delta "{"%char) with 1.
    cbn [Ascii.eqb Bool.eqb andb].
    rewrite scan_braces_open; [reflexivity | lia | ].
    intros p q E Pn.
    specialize (N (String "{"%char p) q). cbn [brace_depth] in N.
    change (brace_delta "{"%char) with 1 in N.
    assert (1 + brace_depth p <> 0).
    { apply N; [simpl; now rewrite E | discriminate]. }
    lia.
Qed.

Lemma extractFact_contract_witness :
  extractFact "DisconSchedule.fact = {}<" = Extracted "{}".
Proof.
  apply (proj1 (proj2 (proj2 (extractFact_contract "DisconSchedule.fact = {}<")))
           EmptyString " " "{}" "<").
  - split; [reflexivity | intros; simpl; lia].
  - apply (blank_cons " " EmptyString); [simpl; tauto | constructor].
  - exists "}". reflexivity.
  - split; [reflexivity|].
    intros p q E Pn Qn.
    destruct p as [|a [|b p]]; [now elim Pn | | ].
    + simpl in E. injection E as <- _. discriminate.
    + simpl in E. injection E as _ _ E.
      destruct p; simpl in E; [subst q; now elim Qn | discriminate].
Defined.

(** ** Objects *)

Lemma lookup_assign_eq (k : string) (v : value) (fs : list (string * value)) :
  lookup k (assign k v fs) = Some v.
Proof.
  induction fs as [|[k' v'] fs IH]; simpl.
  - now rewrite String.eqb_refl.
  - destruct (String.eqb_spec k' k) as [->|N]; simpl.
    + now rewrite String.eqb_refl.
    + destruct (String.eqb_spec k' k); [contradiction | exact IH].
Qed.

Lemma lookup_assign_ne (k k' : string) (v : value) (fs : list (string * value)) :
  k <> k' -> lookup k' (assign k v fs) = lookup k' fs.
Proof.
  intros N. induction fs as [|[k0 v0] fs IH]; simpl.
  - destruct (String.eqb_spec k k'); [contradiction | reflexivity].
  - destruct (String.eqb_spec k0 k) as [->|N0]; simpl.
    + destruct (String.eqb_spec k k'); [contradiction | reflexivity].
    + destruct (String.eqb_spec k0 k'); [reflexivity | exact IH].
Qed.

(** Lookups at keys other than the ones just assigned. *)
Ltac other_keys := rewrite ?lookup_assign_ne by (discriminate || congruence).

Lemma prop_attempt_object (lus : value) (n : Z) :
  prop lus "attempt" = Some (VNum n) -> truthy (Some lus) = true.
Proof. destruct lus; simpl; intros H; try discriminate; reflexivity. Qed.


(** ** Numbers *)

(** Below 2^53 adding 1 is exact. *)
Lemma js_add_one (n : Z) : Z.abs n < 9007199254740992 -> js_add n 1 = n + 1.
Proof.
  intros H. unfold js_add, round_double. cbv zeta.
  destruct (Z.leb_spec (Z.abs (n + 1)) 9007199254740992); [reflexivity | lia].
Qed.

(** At 2^53 it is lost: the sum is a tie between two doubles and goes to
    the even one. *)
Lemma js_add_one_stalls : js_add 9007199254740992 1 = 9007199254740992.
Proof. reflexivity. Qed.

(** ** The failure path *)

Lemma error_document_object (fs ms : list (string * value)) (up : value) (code : Z)
    (msg now : string) :
  lookup "meta" fs = Some (VObj ms) ->
  exists ms',
    error_document (VObj fs) up code msg now =
      Some (VObj (assign "meta" (VObj ms')
                    (assign "lastUpdateStatus"
                       (status_block "error" false code (VStr msg) now
                          (js_add (prev_attempt (VObj fs)) 1)) fs)))
    /\ (forall k, k <> "fileCreated" -> k <> "source" -> lookup k ms' = lookup k ms)
    /\ lookup "fileCreated" ms' =
         (if truthy (lookup "fileCreated" ms) then lookup "fileCreated" ms
          else Some (VStr now)).
Proof.
  intros Hm. unfold error_document. cbn [set_prop prop].
  rewrite lookup_assign_ne by discriminate. rewrite Hm.
  change (truthy (Some (VObj ms))) with true. cbn iota. cbn [prop].
  destruct (truthy (lookup "fileCreated" ms)) eqn:Fc; cbn [negb];
    destruct (truthy (Some up)) eqn:Up; cbn [set_prop read_back prop].
  - eexists. split; [reflexivity|]. split.
    + intros k N1 N2. now other_keys.
    + now other_keys.
  - exists ms. split; [reflexivity|]. split; [reflexivity|reflexivity].
  - eexists. split; [reflexivity|]. split.
    + intros k N1 N2. now other_keys.
    + rewrite !lookup_assign_ne by discriminate. apply lookup_assign_eq.
  - eexists. split; [reflexivity|]. split.
    + intros k N1 N2. now other_keys.
    + apply lookup_assign_eq.
Qed.

Lemma main_stage_failure (h : Host) (argv : list string) (w : World) (code : Z) (msg : string) :
  usage_ok (parseArgs argv) = true ->
  stage_failure h (input_path (parseArgs argv)) (input w) code msg ->
  main h argv w =
  skip_gracefully h (str (region (parseArgs argv))) (or_null (str (upstream (parseArgs argv))))
    code msg w.
Proof.
  intros U F. unfold main. rewrite U. cbn [negb].
  unfold bind at 1. unfold existsSync.
  inversion F as [E | html error X E | html jsonLike error X P E]; cbn [negb].
  - reflexivity.
  - unfold bind at 1. unfold readFile. rewrite <- E. now rewrite X.
  - unfold bind at 1. unfold readFile. rewrite <- E. now rewrite X, P.
Qed.

Lemma skip_gracefully_existing (h : Host) (r : jsval) (up : value) (code : Z) (msg : string)
    (w : World) (existing doc : value) :
  output w = OutJson existing ->
  truthy (Some existing) = true ->
  error_document existing up code msg (reading h (ticks w)) = Some doc ->
  skip_gracefully h r up code msg w = (Exit 0, with_output (tick w) (OutJson doc)).
Proof.
  intros O T E.
  unfold skip_gracefully, bind, loadExisting, updateStatusOnError, bind, isoNow.
  rewrite O, T. unfold ret. fold (reading h (ticks w)). now rewrite E.
Qed.

Lemma invoke_exit (h : Host) (argv : list string) (w w' : World) (s : Z) :
  main h argv w = (Exit s, w') -> invoke h argv w = (s, w').
Proof. intros H. unfold invoke, script, try_catch. now rewrite H. Qed.




(** ** Every failure is recorded *)

Lemma document_shape_inv (v : value) :
  document_shape v = true ->
  exists fs, v = VObj fs /\
    (lookup "meta" fs = None \/ exists ms, lookup "meta" fs = Some (VObj ms)).
Proof.
  destruct v as [| | | | |fs]; simpl; try discriminate.
  intros H. exists fs. split; [reflexivity|].
  destruct (lookup "meta" fs) as [[| | | | |ms]|]; try discriminate.
  - right. now exists ms.
  - now left.
Qed.

Lemma error_document_shape (base up : value) (code : Z) (msg now : string) :
  document_shape base = true ->
  exists doc,
    error_document base up code msg now = Some doc
    /\ document_shape doc = true
    /\ status_field doc "status" = Some (VStr "error")
    /\ status_field doc "ok" = Some (VBool false)
    /\ status_field doc "code" = Some (VNum code)
    /\ status_field doc "attempt" = Some (VNum (js_add (prev_attempt base) 1)).
Proof.
  intros S. destruct (document_shape_inv base S) as (fs & -> & [Hm | [ms Hm]]).
  - eexists. split.
    + unfold error_document. cbn [set_prop prop].
      rewrite lookup_assign_ne by discriminate. rewrite Hm. reflexivity.
    + unfold status_field. cbn [document_shape prop].
      rewrite lookup_assign_ne by discriminate. rewrite Hm.
      rewrite lookup_assign_eq. repeat split; reflexivity.
  - destruct (error_document_object fs ms up code msg now Hm) as (ms' & E & _).
    eexists. split; [exact E|].
    unfold status_field. cbn [document_shape prop].
    rewrite lookup_assign_eq.
    rewrite (lookup_assign_ne "meta" "lastUpdateStatus") by discriminate.
    rewrite lookup_assign_eq. repeat split; reflexivity.
Qed.



Lemma fallback_template_shape (r : jsval) (up : value) (now : string) :
  document_shape (fallback_template r up now) = true.
Proof. reflexivity. Qed.




(** ** The paths of [main] *)

Lemma main_usage (h : Host) (argv : list string) (w : World) :
  usage_ok (parseArgs argv) = false -> main h argv w = (Exit 2, w).
Proof. intros U. unfold main. now rewrite U. Qed.

Lemma main_unreadable (h : Host) (argv : list string) (w : World) (m : string) :
  usage_ok (parseArgs argv) = true -> input w = InUnreadable m ->
  main h argv w = (Throw (js_Error m), w).
Proof.
  intros U I. unfold main. rewrite U. cbn [negb].
  unfold bind at 1, existsSync. rewrite I. cbn [negb].
  unfold bind at 1, readFile. now rewrite I.
Qed.

Lemma main_parse_throws (h : Host) (argv : list string) (w : World)
    (html jsonLike : string) (e : jsval) :
  usage_ok (parseArgs argv) = true -> input w = InText html ->
  extractFact html = Extracted jsonLike ->
  tryParseObject h jsonLike = ParseThrows e ->
  main h argv w = (Throw e, w).
Proof.
  intros U I X P. unfold main. rewrite U. cbn [negb].
  unfold bind at 1, existsSync. rewrite I. cbn [negb].
  unfold bind at 1, readFile. rewrite I, X, P. reflexivity.
Qed.

(** The two ways [main] throws before it reads the clock: the input
    cannot be read, or the structural parser throws. *)
Lemma main_crashes_early (h : Host) (argv : list string) (w : World) (m : string) :
  usage_ok (parseArgs argv) = true ->
  (input w = InUnreadable m
   \/ exists html jsonLike,
        input w = InText html /\ extractFact html = Extracted jsonLike
        /\ tryParseObject h jsonLike = ParseThrows (js_Error m)) ->
  main h argv w = (Throw (js_Error m), w).
Proof.
  intros U [I | (html & j & I & X & P)].
  - now apply main_unreadable.
  - now apply (main_parse_throws h argv w html j).
Qed.

(** What [tryParseObject] throws is a [TypeError]. *)
Lemma tryParseObject_throws (h : Host) (text : string) (e : jsval) :
  tryParseObject h text = ParseThrows e -> exists m, e = js_Error m.
Proof.
  unfold tryParseObject. destruct (JSON_parse h text); [discriminate|].
  destruct (Function_call h (wrap_body text)) as [v|e0]; [discriminate|].
  destruct (message_of e0); [discriminate|].
  intros H. injection H as <-. eexists. reflexivity.
Qed.

Lemma main_parsed_null (h : Host) (argv : list string) (w : World)
    (html jsonLike method : string) :
  usage_ok (parseArgs argv) = true -> input w = InText html ->
  extractFact html = Extracted jsonLike ->
  tryParseObject h jsonLike = Parsed VNull method ->
  main h argv w
  = (Throw (js_Error "Cannot convert undefined or null to object"), tick (tick w)).
Proof.
  intros U I X P. unfold main. rewrite U. cbn [negb].
  unfold bind at 1, existsSync. rewrite I. cbn [negb].
  unfold bind at 1, readFile. rewrite I, X, P. reflexivity.
Qed.

Lemma main_parsed (h : Host) (argv : list string) (w : World)
    (html jsonLike method : string) (v : value) :
  usage_ok (parseArgs argv) = true -> input w = InText html ->
  extractFact html = Extracted jsonLike ->
  tryParseObject h jsonLike = Parsed v method -> v <> VNull ->
  main h argv w =
  (Ret tt,
   with_output (tick (tick w))
     (OutJson (merge_parsed (loaded w)
                 (normalized h (or_null (str (region (parseArgs argv))))
                    (or_null (str (upstream (parseArgs argv)))) v
                    (reading h (S (ticks w))))
                 (reading h (ticks w)) (sha256 h jsonLike)))).
Proof.
  intros U I X P N. unfold main. rewrite U. cbn [negb].
  unfold bind at 1, existsSync. rewrite I. cbn [negb].
  unfold bind at 1, readFile. rewrite I, X, P.
  unfold bind at 1, isoNow. unfold bind at 1, normalize, bind at 1.
  cbn [ticks]. unfold ret at 1.
  destruct v; try (now elim N); reflexivity.
Qed.

Lemma invoke_ret (h : Host) (argv : list string) (w w' : World) :
  main h argv w = (Ret tt, w') -> invoke h argv w = (0, w').
Proof. intros H. unfold invoke, script, try_catch. now rewrite H. Qed.

Lemma invoke_throw (h : Host) (argv : list string) (w w1 w2 : World) (m : string) :
  main h argv w = (Throw (js_Error m), w1) ->
  on_crash h argv m w1 = (Ret tt, w2) ->
  invoke h argv w = (0, w2).
Proof.
  intros H C. unfold invoke, script, try_catch at 1. rewrite H.
  change (message_of (js_Error m)) with (Some m). cbn iota.
  unfold bind, try_catch. now rewrite C.
Qed.

(** The input file decides the path [main] takes. *)
Lemma input_cases (h : Host) (path : string) (i : in_file) :
  (exists code msg, stage_failure h path i code msg)
  \/ (exists m, i = InUnreadable m
                \/ exists html jsonLike,
                     i = InText html /\ extractFact html = Extracted jsonLike
                     /\ tryParseObject h jsonLike = ParseThrows (js_Error m))
  \/ (exists html jsonLike method,
        i = InText html /\ extractFact html = Extracted jsonLike
        /\ tryParseObject h jsonLike = Parsed VNull method)
  \/ (exists html jsonLike method v,
        i = InText html /\ extractFact html = Extracted jsonLike
        /\ tryParseObject h jsonLike = Parsed v method /\ v <> VNull).
Proof.
  destruct i as [|m|html].
  - left. eexists. eexists. constructor.
  - right. left. exists m. now left.
  - destruct (extractFact html) as [j|e] eqn:X.
    + destruct (tryParseObject h j) as [v method|e|e] eqn:P.
      * destruct v;
          try (right; right; right; exists html, j, method; eexists;
               repeat split; try eassumption; discriminate).
        right. right. left. exists html, j, method. auto.
      * left. eexists. eexists. eapply parse_failed; eassumption.
      * destruct (tryParseObject_throws h j e P) as [m ->].
        right. left. exists m. right. exists html, j. auto.
    + left. eexists. eexists. eapply extraction_failed; eassumption.
Qed.



Lemma prior_shape_tick (w : World) : prior_shape (tick w) = prior_shape w.
Proof. reflexivity. Qed.

(** [updateStatusOnError] returns or throws; it never leaves the process. *)
Lemma updateStatusOnError_no_exit (h : Host) (existing : value) (r : jsval) (up : value)
    (code : Z) (msg : string) (w w' : World) (s : Z) :
  updateStatusOnError h existing r up code msg w <> (Exit s, w').
Proof.
  unfold updateStatusOnError, bind at 1, isoNow.
  destruct (truthy (Some existing)).
  - unfold bind, ret.
    destruct (error_document existing up code msg _); discriminate.
  - unfold bind at 1, loadTemplateBase, bind at 1, isoNow.
    unfold bind at 1, read_template.
    destruct (template_base _ r up _); [|discriminate].
    unfold ret at 1.
    destruct (error_document _ up code msg _); discriminate.
Qed.

Lemma skip_gracefully_status (h : Host) (r : jsval) (up : value) (code : Z) (msg : string)
    (w w' : World) (s : Z) :
  skip_gracefully h r up code msg w = (Exit s, w') -> s = 0.
Proof.
  unfold skip_gracefully, bind at 1, loadExisting. unfold bind at 1.
  destruct (updateStatusOnError h _ r up code msg w) as [[doc|m|s'] w1] eqn:E.
  - intros H. now injection H as <- _.
  - discriminate.
  - exfalso. exact (updateStatusOnError_no_exit h _ r up code msg w w1 s' E).
Qed.

Lemma on_crash_no_exit (h : Host) (argv : list string) (m : string) (w w' : World) (s : Z) :
  on_crash h argv m w <> (Exit s, w').
Proof.
  unfold on_crash.
  destruct (truthy (str (arg_output (parseArgs argv)))).
  - unfold bind at 1, loadExisting. unfold bind at 1.
    destruct (updateStatusOnError h _ _ _ 500 _ w) as [[doc|m'|s'] w1] eqn:E; try discriminate.
    exfalso. exact (updateStatusOnError_no_exit h _ _ _ 500 _ w w1 s' E).
  - unfold bind at 1, ret at 1. unfold bind at 1.
    destruct (updateStatusOnError h _ _ _ 500 _ w) as [[doc|m'|s'] w1] eqn:E; try discriminate.
    exfalso. exact (updateStatusOnError_no_exit h _ _ _ 500 _ w w1 s' E).
Qed.

(** What [updateStatusOnError] throws is a [TypeError]. *)
Lemma updateStatusOnError_throws (h : Host) (existing : value) (r : jsval) (up : value)
    (code : Z) (msg : string) (w w' : World) (e : jsval) :
  updateStatusOnError h existing r up code msg w = (Throw e, w') -> exists m, e = js_Error m.
Proof.
  unfold updateStatusOnError, bind at 1, isoNow.
  destruct (truthy (Some existing)).
  - unfold bind, ret.
    destruct (error_document existing up code msg _); [discriminate|].
    unfold throw. intros H. injection H as <- _. eexists. reflexivity.
  - unfold bind at 1, loadTemplateBase, bind at 1, isoNow.
    unfold bind at 1, read_template.
    destruct (template_base _ r up _).
    + unfold ret at 1.
      destruct (error_document _ up code msg _); [discriminate|].
      unfold throw. intros H. injection H as <- _. eexists. reflexivity.
    + unfold throw. intros H. injection H as <- _. eexists. reflexivity.
Qed.

(** Whatever [main] throws is an [Error]: the handler of the module can
    read its message. *)
Lemma main_throws_error (h : Host) (argv : list string) (w w1 : World) (e : jsval) :
  usage_ok (parseArgs argv) = true ->
  main h argv w = (Throw e, w1) -> exists m, e = js_Error m.
Proof.
  intros U Em.
  destruct (input_cases h (input_path (parseArgs argv)) (input w))
    as [(code & msg & Sf) | [(m & I) | [(html & j & method & I & X & P)
                                       | (html & j & method & v & I & X & P & N)]]].
  - rewrite (main_stage_failure h argv w code msg U Sf) in Em.
    unfold skip_gracefully, bind at 1, loadExisting in Em. unfold bind at 1 in Em.
    destruct (updateStatusOnError h _ _ _ code msg w) as [[doc|e'|s'] w2] eqn:E.
    + discriminate.
    + injection Em as <- _. exact (updateStatusOnError_throws h _ _ _ code msg w w2 e' E).
    + discriminate.
  - rewrite (main_crashes_early h argv w m U I) in Em. injection Em as <- _. now exists m.
  - rewrite (main_parsed_null h argv w html j method U I X P) in Em.
    injection Em as <- _. eexists. reflexivity.
  - rewrite (main_parsed h argv w html j method v U I X P N) in Em. discriminate.
Qed.

(** With the three required options given and an input the evaluator is
    not run on, the process ends with status 0 whatever the files hold. *)
Lemma exit_status_zero (h : Host) (argv : list string) (w : World) :
  usage_ok (parseArgs argv) = true -> no_evaluation h (input w) = true ->
  fst (invoke h argv w) = 0.
Proof.
  intros U _. unfold invoke, script, try_catch at 1.
  destruct (main h argv w) as [[[]|e|s] w1] eqn:Em.
  - reflexivity.
  - destruct (main_throws_error h argv w w1 e U Em) as [m ->].
    change (message_of (js_Error m)) with (Some m). cbn iota.
    unfold bind, try_catch.
    destruct (on_crash h argv m w1) as [[[]|m'|s'] w2] eqn:Ec; try reflexivity.
    exfalso. exact (on_crash_no_exit h argv m w1 w2 s' Ec).
  - cbn [fst].
    destruct (input_cases h (input_path (parseArgs argv)) (input w))
      as [(code & msg & Sf) | [(m & I) | [(html & j & method & I & X & P)
                                         | (html & j & method & v & I & X & P & N)]]].
    + rewrite (main_stage_failure h argv w code msg U Sf) in Em.
      exact (skip_gracefully_status h _ _ code msg w w1 s Em).
    + rewrite (main_crashes_early h argv w m U I) in Em. discriminate.
    + rewrite (main_parsed_null h argv w html j method U I X P) in Em. discriminate.
    + rewrite (main_parsed h argv w html j method v U I X P N) in Em. discriminate.
Qed.





(** ** The group normaliser *)

Lemma normalize_entry_unmatched (h : Host) (entry : value) :
  entry_matches entry = false -> normalize_entry h entry = entry.
Proof. intros H. unfold normalize_entry. now rewrite H. Qed.






Lemma normalize_ret (h : Host) (regionId upstream rawObj : value) (w : World) :
  rawObj <> VNull ->
  normalize h regionId upstream rawObj w =
  (Ret (normalized h regionId upstream rawObj (reading h (ticks w))), tick w).
Proof.
  intros N. unfold normalize, bind, isoNow. fold (reading h (ticks w)).
  destruct rawObj; try (now elim N); reflexivity.
Qed.

Lemma normalized_data_prop (h : Host) (regionId upstream rawObj : value) (now : string) :
  prop (normalized h regionId upstream rawObj now) "data"
    = Some (fst (normalized_data h rawObj))
  /\ meta_field (normalized h regionId upstream rawObj now) "dataEmptyReason"
    = Some (snd (normalized_data h rawObj)).
Proof. split; reflexivity. Qed.

Lemma normalized_without_payload (h : Host) (regionId upstream rawObj : value) (now : string) :
  carries_payload rawObj = false ->
  prop (normalized h regionId upstream rawObj now) "data" = Some rawObj
  /\ meta_field (normalized h regionId upstream rawObj now) "dataEmptyReason"
     = Some (VStr "no-data-field-present").
Proof.
  intros C. destruct (normalized_data_prop h regionId upstream rawObj now) as [-> ->].
  unfold normalized_data, data_field.
  destruct rawObj as [| | | | |fs]; try (split; reflexivity).
  cbn [carries_payload] in C. cbn [prop].
  destruct (lookup "data" fs) as [[| | | | |]|]; try discriminate; split; reflexivity.
Qed.


(** C7 (as amended).  A parsed value that does not carry the nested payload
    field (the field is absent, or [null]) is stored whole and verbatim as
    [data], and the document records
    [dataEmptyReason = "no-data-field-present"]. *)
Theorem whole_value_stored_verbatim (h : Host) (regionId upstream rawObj : value) (w : World) :
  rawObj <> VNull ->
  carries_payload rawObj = false ->
  exists doc,
    normalize h regionId upstream rawObj w = (Ret doc, tick w)
    /\ prop doc "data" = Some rawObj
    /\ meta_field doc "dataEmptyReason" = Some (VStr "no-data-field-present").
Proof.
  intros N C. eexists. split; [apply normalize_ret; exact N|].
  now apply normalized_without_payload.
Qed.

Lemma whole_value_stored_verbatim_witness :
  exists doc,
    normalize Sample.host (VStr "kyiv") VNull Sample.bare (Sample.world InMissing OutMissing)
      = (Ret doc, tick (Sample.world InMissing OutMissing))
    /\ prop doc "data" = Some Sample.bare
    /\ meta_field doc "dataEmptyReason" = Some (VStr "no-data-field-present").
Proof.
  apply (whole_value_stored_verbatim Sample.host (VStr "kyiv") VNull Sample.bare
           (Sample.world InMissing OutMissing)); [discriminate | reflexivity].
Defined.

(** C7 as the specification states it fails: a value without the nested
    field and with a group in it is not put through the group filter and
    the timestamp conversion; the note stays, the entry keeps its raw
    fields. *)
Lemma whole_value_not_normalized :
  carries_payload Sample.bare = false
  /\ extractGroupsWithIso Sample.host (Some Sample.bare)
     = VObj [("GPV1.1",
               VArr [VObj [("date", VStr "2025-03-30");
                           ("startLocal", VStr "2025-03-30T00:00:00+02:00");
                           ("endLocal", VStr "2025-03-30T02:00:00+02:00")]])]
  /\ prop (normalized Sample.host (VStr "kyiv") VNull Sample.bare "2025-03-30T00:00:00.000Z")
          "data"
     <> Some (extractGroupsWithIso Sample.host (Some Sample.bare)).
Proof.
  split; [reflexivity|]. split; [vm_compute; reflexivity|].
  vm_compute. discriminate.
Qed.



(** ** The success path *)

Lemma normalized_data_timeless (h : Host) (regionId upstream rawObj : value) (now now' : string) :
  prop (normalized h regionId upstream rawObj now) "data"
  = prop (normalized h regionId upstream rawObj now') "data".
Proof. reflexivity. Qed.

Lemma merge_parsed_fresh (existing regionId upstream : value) (now now2 hash : string)
    (dataOut : value) (dataEmpty : bool) (reason : value) (raw : bool) :
  let doc := merge_parsed existing
               (fresh_document regionId upstream now2 dataOut dataEmpty reason raw) now hash in
  prop doc "data" = Some dataOut
  /\ prop doc "lastUpdated" = Some (VStr now2)
  /\ meta_field doc "contentHash" = Some (VStr hash)
  /\ meta_field doc "fileCreated" = Some (merged_stamp existing now2)
  /\ status_field doc "status" = Some (VStr "parsed")
  /\ status_field doc "attempt"
     = Some (VNum (js_add (if truthy (Some existing) then prev_attempt existing else 0) 1))
  /\ document_shape doc = true
  /\ meta_field doc "dataEmptyReason"
     = Some (if data_is_empty (Some dataOut) && negb (truthy (Some reason))
             then VStr "empty-data-after-parse" else reason).
Proof.
  unfold merge_parsed, merged_stamp, meta_field, status_field, fresh_document.
  destruct (truthy (Some existing) && truthy (prop existing "meta"));
    cbn -[truthy prev_attempt data_is_empty or_null js_or Z.add];
    match goal with
    | |- context [if ?b then VObj _ else VObj _] => destruct b
    end;
    repeat split; reflexivity.
Qed.



Lemma or_null_truthy (a : jsval) : truthy a = true -> Some (or_null a) = a.
Proof.
  intros H. unfold or_null, js_or. rewrite H. destruct a; [reflexivity | discriminate].
Qed.




Lemma prev_attempt_status (doc : value) (n : Z) :
  status_field doc "attempt" = Some (VNum n) -> prev_attempt doc = n.
Proof.
  unfold status_field, prev_attempt. intros H.
  destruct (prop doc "lastUpdateStatus") as [lus|]; [|discriminate].
  cbn [prop_of] in *. rewrite (prop_attempt_object lus n H). now rewrite H.
Qed.

Lemma document_shape_truthy (doc : value) :
  document_shape doc = true -> truthy (Some doc) = true.
Proof. destruct doc; simpl; intros H; try discriminate; reflexivity. Qed.

(** What a successful invocation writes. *)
Lemma invoke_parsed (h : Host) (argv : list string) (w : World)
    (html jsonLike method : string) (v : value) :
  usage_ok (parseArgs argv) = true -> input w = InText html ->
  extractFact html = Extracted jsonLike ->
  tryParseObject h jsonLike = Parsed v method -> v <> VNull ->
  exists doc,
    invoke h argv w = (0, with_output (tick (tick w)) (OutJson doc))
    /\ prop doc "data" = Some (fst (normalized_data h v))
    /\ prop doc "lastUpdated" = Some (VStr (reading h (S (ticks w))))
    /\ meta_field doc "contentHash" = Some (VStr (sha256 h jsonLike))
    /\ meta_field doc "fileCreated" = Some (merged_stamp (loaded w) (reading h (S (ticks w))))
    /\ status_field doc "status" = Some (VStr "parsed")
    /\ status_field doc "attempt"
       = Some (VNum (js_add (if truthy (Some (loaded w)) then prev_attempt (loaded w) else 0) 1))
    /\ document_shape doc = true
    /\ meta_field doc "dataEmptyReason"
       = Some (if data_is_empty (Some (fst (normalized_data h v)))
                  && negb (truthy (Some (snd (normalized_data h v))))
               then VStr "empty-data-after-parse" else snd (normalized_data h v)).
Proof.
  intros U I X P N. eexists. split.
  - apply invoke_ret. eapply main_parsed; eassumption.
  - unfold normalized. apply merge_parsed_fresh.
Qed.





(** ** The creation stamp *)

Lemma updateStatusOnError_existing (h : Host) (existing : value) (r : jsval) (up : value)
    (code : Z) (msg : string) (w : World) :
  truthy (Some existing) = true ->
  updateStatusOnError h existing r up code msg w =
  match error_document existing up code msg (reading h (ticks w)) with
  | Some doc => (Ret doc, tick w)
  | None => (Throw (js_Error "Cannot set properties of undefined (setting 'upstream')"),
             tick w)
  end.
Proof.
  intros T. unfold updateStatusOnError, bind at 1, isoNow. rewrite T.
  unfold bind, ret. fold (reading h (ticks w)).
  destruct (error_document existing up code msg (reading h (ticks w))); reflexivity.
Qed.













(** ** A corrupt output file *)


Lemma with_output_same (w w' : World) (o : out_file) (k : nat) :
  input w' = input w -> template w' = template w ->
  {| input := input w'; output := o; template := template w'; ticks := k |}
  = {| input := input w; output := o; template := template w; ticks := k |}.
Proof. intros -> ->. reflexivity. Qed.




(** ** The structural parser *)




(** ** The scenario of the specification *)

Lemma blank_space : blank " ".
Proof. apply (blank_cons " " EmptyString); [simpl; tauto | constructor]. Qed.

Lemma extractFact_scenario (pre post html : string) :
  first_marker pre (" " ++ Sample.span ++ post) html ->
  extractFact html = Extracted Sample.span.
Proof.
  intros F. rewrite (extractFact_after _ _ (after_marker_first _ _ _ F)).
  rewrite (skip_ws_blank " " (Sample.span ++ post) blank_space eq_refl).
  vm_compute. reflexivity.
Qed.

(** C3 (as amended).  On an HTML text whose first marker is followed by the
    literal of the scenario, the literal has no nested [data] field, so
    whatever the zone, the clock and the prior output, the document written
    holds the parsed value itself: [data.GPV1.1[0]] is the entry as it
    came, with [date], [start] and [end], and [meta.dataEmptyReason] is
    "no-data-field-present". *)
Theorem scenario_stored_raw (digest : string -> string) (offset : Z -> Z) (clk : nat -> Z)
    (pre post html : string) (o : out_file) (t : option value) (k : nat) :
  first_marker pre (" " ++ Sample.span ++ post) html ->
  exists doc,
    output (snd (invoke (Fragment.host digest offset clk) Sample.argv
                   {| input := InText html; output := o; template := t; ticks := k |}))
    = OutJson doc
    /\ at_index (prop_of (prop doc "data") "GPV1.1") 0
       = Some (VObj [("date", VStr "2025-03-30"); ("start", VStr "2:00"); ("end", VStr "4:00")])
    /\ meta_field doc "dataEmptyReason" = Some (VStr "no-data-field-present").
Proof.
  intros F.
  destruct (invoke_parsed (Fragment.host digest offset clk) Sample.argv
              {| input := InText html; output := o; template := t; ticks := k |}
              html Sample.span "json" Sample.bare_fact
              eq_refl eq_refl (extractFact_scenario pre post html F) eq_refl)
    as (doc & E & D & _ & _ & _ & _ & _ & _ & R).
  - discriminate.
  - exists doc. rewrite E. split; [reflexivity|]. split.
    + rewrite D. reflexivity.
    + rewrite R. reflexivity.
Qed.

Lemma scenario_stored_raw_witness :
  exists doc,
    output (snd (invoke Sample.host Sample.argv
                   (Sample.world (InText (marker ++ " " ++ Sample.span ++ ";")) OutMissing)))
    = OutJson doc
    /\ at_index (prop_of (prop doc "data") "GPV1.1") 0
       = Some (VObj [("date", VStr "2025-03-30"); ("start", VStr "2:00"); ("end", VStr "4:00")])
    /\ meta_field doc "dataEmptyReason" = Some (VStr "no-data-field-present").
Proof.
  apply (scenario_stored_raw Sample.digest (fun _ => 120) Sample.clk
           EmptyString ";" (marker ++ " " ++ Sample.span ++ ";") OutMissing None O).
  split; [reflexivity | intros; simpl; lia].
Defined.

(** C3 as the specification states it fails: the entry written is not the
    converted one. *)
Lemma scenario_not_converted :
  at_index
    (prop_of
       (prop (loaded (snd (invoke Sample.host Sample.argv
                             (Sample.world (InText Sample.html) OutMissing)))) "data")
       "GPV1.1") 0
  <> Some (VObj [("date", VStr "2025-03-30");
                 ("startLocal", VStr "2025-03-30T02:00:00+02:00");
                 ("endLocal", VStr "2025-03-30T04:00:00+02:00")]).
Proof. vm_compute. discriminate. Qed.

(** With the payload under [data] the entry is converted; the timestamps
    then carry the UTC clock time of the instant in front of the zone's
    offset: 02:00 in a zone at UTC+2 is written 00:00:00+02:00. *)
Lemma scenario_wrapped_timestamps :
  at_index
    (prop_of
       (prop (loaded (snd (invoke Sample.host Sample.argv
                             (Sample.world (InText Sample.html_wrapped) OutMissing)))) "data")
       "GPV1.1") 0
  = Some (VObj [("date", VStr "2025-03-30");
                ("startLocal", VStr "2025-03-30T00:00:00+02:00");
                ("endLocal", VStr "2025-03-30T02:00:00+02:00")]).
Proof. vm_compute. reflexivity. Qed.

(** * Further properties of the code *)

(** ** The command line *)

Lemma is_flag_false (s : string) :
  is_flag s = false ->
  (s =? "--region")%string = false /\ (s =? "--in")%string = false
  /\ (s =? "--out")%string = false /\ (s =? "--upstream")%string = false
  /\ (s =? "--pretty")%string = false.
Proof.
  unfold is_flag. intros H.
  repeat (apply orb_false_iff in H; destruct H as [H ?]). auto.
Qed.

Lemma parseArgs_from_items (items : list cli_item) :
  (forall s, In (Other s) items -> is_flag s = false) ->
  forall (tail : list string) (args : Args),
    parseArgs_from (List.concat (map render items) ++ tail) args
    = parseArgs_from tail (fold_left apply_item items args).
Proof.
  induction items as [|i items IH]; intros H tail args; [reflexivity|].
  assert (H' : forall s, In (Other s) items -> is_flag s = false)
    by (intros s I; apply H; now right).
  destruct i as [f v| |word]; cbn [map List.concat render fold_left apply_item].
  - rewrite <- (IH H' tail). destruct f; reflexivity.
  - rewrite <- (IH H' tail). reflexivity.
  - destruct (is_flag_false word (H word (or_introl eq_refl))) as (E1 & E2 & E3 & E4 & E5).
    rewrite <- (IH H' tail). cbn [app parseArgs_from].
    now rewrite E1, E2, E3, E4, E5.
Qed.

(** X1.  [parseArgs] reads the command line item by item, from [argv[2]]
    on: the word after [--region], [--in], [--out] or [--upstream] is the
    value of that option whatever it looks like (another option's name
    included) and is not read again as an option; [--pretty] sets its
    flag; any other word is skipped; of two values for one option the
    later one stands.  An option given as the last word, with nothing
    after it, ends up [undefined], earlier values of it notwithstanding. *)
Theorem parseArgs_by_items (items : list cli_item) (node script : string) :
  (forall s, In (Other s) items -> is_flag s = false) ->
  parseArgs (node :: script :: List.concat (map render items))
  = fold_left apply_item items no_args
  /\ forall f,
       parseArgs (node :: script :: List.concat (map render items) ++ [flag_text f])
       = set_flag f None (fold_left apply_item items no_args).
Proof.
  intros H. unfold parseArgs. cbn [skipn]. split.
  - rewrite <- (app_nil_r (List.concat (map render items))).
    now rewrite parseArgs_from_items.
  - intros f. rewrite parseArgs_from_items by exact H. destruct f; reflexivity.
Qed.

Lemma parseArgs_by_items_witness :
  region (parseArgs ["node"; "parse_fact.js"; "--region"; "--in"; "x"; "--region"; "kyiv";
                     "--pretty"]) = Some "kyiv".
Proof.
  exact (f_equal region
           (proj1 (parseArgs_by_items
                     [Opt FRegion "--in"; Other "x"; Opt FRegion "kyiv"; Pretty]
                     "node" "parse_fact.js"
                     ltac:(intros s [E|[E|[E|[E|[]]]]]; try discriminate;
                           injection E as <-; reflexivity)))).
Defined.

(** ** The driver *)






(** ** The literal locator, read backwards *)

Lemma after_marker_found (html rest : string) :
  after_marker html = Some rest -> exists pre, first_marker pre rest html.
Proof.
  revert rest. induction html as [|c html IH]; intros rest H; rewrite after_marker_eq in H.
  - destruct (starts_with marker EmptyString) eqn:E; discriminate.
  - destruct (starts_with marker (String c html)) eqn:E.
    + apply starts_with_split in E. destruct E as [b E].
      rewrite E, drop_append in H. injection H as <-.
      exists EmptyString. split; [exact E | intros; simpl; lia].
    + destruct (IH rest H) as (pre & E1 & Hmin).
      exists (String c pre). split; [simpl; now rewrite E1|].
      intros pre' post' E'.
      destruct pre' as [|c' pre'].
      * change (String c html = marker ++ post') in E'.
        rewrite E', starts_with_append in E. discriminate.
      * simpl in E'. injection E' as _ E'.
        specialize (Hmin pre' post' E'). simpl. lia.
Qed.

Lemma after_marker_none (html : string) :
  after_marker html = None -> forall pre post, html <> pre ++ marker ++ post.
Proof.
  intros H pre post E. subst html. revert H.
  induction pre as [|c pre IH]; rewrite after_marker_eq.
  - change (EmptyString ++ marker ++ post) with (marker ++ post).
    now rewrite starts_with_append.
  - change (String c pre ++ marker ++ post) with (String c (pre ++ marker ++ post)).
    destruct (starts_with marker (String c (pre ++ marker ++ post))); [discriminate|].
    exact IH.
Qed.

Lemma width_in_split (table : list string) (s : string) (n : nat) :
  width_in table s = S n ->
  exists u, In u table /\ String.length u = S n /\ s = u ++ drop (S n) s.
Proof.
  induction table as [|w table IH]; cbn [width_in]; [discriminate|].
  destruct (starts_with w s) eqn:E.
  - intros L. apply starts_with_split in E. destruct E as [b E].
    exists w. split; [now left|]. split; [exact L|].
    rewrite <- L. rewrite E at 2. now rewrite drop_append.
  - intros L. destruct (IH L) as (u & I & R). exists u. split; [now right | exact R].
Qed.

Lemma skip_ws_fuel_split (fuel : nat) :
  forall s, (String.length s <= fuel)%nat ->
  exists ws, s = ws ++ skip_ws_fuel fuel s /\ blank ws /\ ws_width (skip_ws_fuel fuel s) = O.
Proof.
  induction fuel as [|f IH]; intros s L.
  - destruct s; [|simpl in L; lia].
    exists EmptyString. repeat split. constructor.
  - cbn [skip_ws_fuel]. destruct (ws_width s) as [|n] eqn:W.
    + exists EmptyString. repeat split; [constructor | exact W].
    + destruct (width_in_split whitespace s n W) as (u & I & Lu & E).
      assert (Ld : (String.length (drop (S n) s) <= f)%nat).
      { assert (K : String.length s = (String.length u + String.length (drop (S n) s))%nat)
          by (rewrite E at 1; apply length_append).
        lia. }
      destruct (IH _ Ld) as (ws & E2 & B & Z0).
      exists (u ++ ws). split; [|split; [now constructor | exact Z0]].
      rewrite append_assoc, <- E2. exact E.
Qed.

Lemma skip_ws_split (s : string) :
  exists ws, s = ws ++ skip_ws s /\ blank ws /\ ws_width (skip_ws s) = O.
Proof. apply skip_ws_fuel_split. apply Nat.le_refl. Qed.

Lemma scan_braces_found (s : string) :
  forall depth span, 1 <= depth -> scan_braces s depth = Some span ->
  exists tail, s = span ++ tail /\ depth + brace_depth span = 0
    /\ (forall p q, span = p ++ q -> p <> EmptyString -> q <> EmptyString ->
                    depth + brace_depth p <> 0).
Proof.
  induction s as [|c s IH]; intros depth span D H; [discriminate|].
  rewrite scan_braces_step in H.
  destruct (Ascii.eqb c "}"%char && (depth + brace_delta c =? 0)) eqn:E.
  - injection H as <-. apply andb_true_iff in E. destruct E as [_ E]. apply Z.eqb_eq in E.
    exists s. split; [reflexivity|]. split; [cbn [brace_depth]; lia|].
    intros p q Epq Pn Qn. destruct p as [|a p]; [now elim Pn|].
    simpl in Epq. injection Epq as _ Epq.
    destruct p; simpl in Epq; [subst q; now elim Qn | discriminate].
  - assert (Hc : depth + brace_delta c <> 0).
    { intros Z0. rewrite (brace_delta_zero c depth D Z0) in E.
      apply Z.eqb_eq in Z0. rewrite Z0 in E. discriminate. }
    destruct (scan_braces s (depth + brace_delta c)) as [sp|] eqn:R; [|discriminate].
    injection H as <-.
    assert (D' : 1 <= depth + brace_delta c) by (pose proof (brace_delta_bound c); lia).
    destruct (IH _ _ D' R) as (tail & Es & Z0 & Hp).
    exists tail. split; [simpl; now rewrite Es|]. split; [cbn [brace_depth]; lia|].
    intros p q Epq Pn Qn. destruct p as [|a p]; [now elim Pn|].
    simpl in Epq. injection Epq as <- Epq. cbn [brace_depth].
    destruct p as [|b p].
    + cbn [brace_depth]. lia.
    + assert (depth + brace_delta c + brace_depth (String b p) <> 0)
        by (apply (Hp _ q Epq); [discriminate | exact Qn]).
      lia.
Qed.

Lemma scan_braces_never (s : string) :
  forall depth, 1 <= depth -> scan_braces s depth = None ->
  forall p q, s = p ++ q -> p <> EmptyString -> depth + brace_depth p <> 0.
Proof.
  induction s as [|c s IH]; intros depth D H p q E Pn.
  - destruct p; [now elim Pn | discriminate].
  - rewrite scan_braces_step in H.
    destruct (Ascii.eqb c "}"%char && (depth + brace_delta c =? 0)) eqn:B; [discriminate|].
    assert (Hc : depth + brace_delta c <> 0).
    { intros Z0. rewrite (brace_delta_zero c depth D Z0) in B.
      apply Z.eqb_eq in Z0. rewrite Z0 in B. discriminate. }
    destruct (scan_braces s (depth + brace_delta c)) eqn:R; [discriminate|].
    destruct p as [|a p]; [now elim Pn|].
    simpl in E. injection E as <- E. cbn [brace_depth].
    destruct p as [|b p].
    + cbn [brace_depth]. lia.
    + assert (D' : 1 <= depth + brace_delta c) by (pose proof (brace_delta_bound c); lia).
      assert (depth + brace_delta c + brace_depth (String b p) <> 0)
        by (apply (IH _ D' R _ q E); discriminate).
      lia.
Qed.

(** The three ways [extractFact] goes once the marker is found. *)
Lemma extractFact_cases (html rest : string) :
  after_marker html = Some rest ->
  exists ws body, rest = ws ++ body /\ blank ws /\ ws_width body = O
    /\ ((forall r, body <> String "{"%char r) /\ extractFact html = ExtractError UnexpectedToken
        \/ exists r, body = String "{"%char r
             /\ ((exists sp tail, r = sp ++ tail /\ closes (String "{"%char sp)
                                  /\ extractFact html = Extracted (String "{"%char sp))
                 \/ (never_closes body /\ extractFact html = ExtractError UnbalancedBraces))).
Proof.
  intros A. rewrite (extractFact_after html rest A).
  destruct (skip_ws_split rest) as (ws & E & B & W).
  exists ws, (skip_ws rest). split; [exact E|]. split; [exact B|]. split; [exact W|].
  destruct (skip_ws rest) as [|c r] eqn:S.
  - left. split; [discriminate | reflexivity].
  - destruct (Ascii.eqb_spec c "{"%char) as [->|N].
    + right. exists r. split; [reflexivity|].
      rewrite scan_braces_step. change (brace_delta "{"%char) with 1.
      cbn [Ascii.eqb Bool.eqb andb].
      destruct (scan_braces r (0 + 1)) as [sp|] eqn:R; cbn [option_map].
      * left. destruct (scan_braces_found r (0 + 1) sp ltac:(lia) R) as (tail & Er & Z0 & Hp).
        exists sp, tail. split; [exact Er|].
        split; [|reflexivity]. split.
        -- cbn [brace_depth]. change (brace_delta "{"%char) with 1. lia.
        -- intros p q Epq Pn Qn. destruct p as [|a p]; [now elim Pn|].
           simpl in Epq. injection Epq as <- Epq. cbn [brace_depth].
           change (brace_delta "{"%char) with 1.
           destruct p as [|b p]; [cbn [brace_depth]; lia|].
           assert (0 + 1 + brace_depth (String b p) <> 0)
             by (apply (Hp _ q Epq); [discriminate | exact Qn]).
           lia.
      * right. split; [|reflexivity].
        intros p q Epq Pn. destruct p as [|a p]; [now elim Pn|].
        simpl in Epq. injection Epq as <- Epq. cbn [brace_depth].
        change (brace_delta "{"%char) with 1.
        destruct p as [|b p]; [cbn [brace_depth]; lia|].
        assert (0 + 1 + brace_depth (String b p) <> 0)
          by (apply (scan_braces_never r (0 + 1) ltac:(lia) R _ q Epq); discriminate).
        lia.
    + left. split; [|reflexivity]. intros r' E'. injection E' as E' _. contradiction.
Qed.

(** X3.  What [extractFact] returns is where it should be: a span it
    returns starts with an opening brace, sits right after the first
    occurrence of the marker and a run of white space, and ends at the
    brace where the depth first returns to zero. *)
Theorem extractFact_span_sound (html span : string) :
  extractFact html = Extracted span ->
  exists pre ws tail r,
    first_marker pre (ws ++ span ++ tail) html /\ blank ws
    /\ span = String "{"%char r /\ closes span.
Proof.
  intros X.
  destruct (after_marker html) as [rest|] eqn:A.
  2:{ unfold extractFact in X. rewrite A in X. discriminate. }
  destruct (after_marker_found html rest A) as (pre & F).
  destruct (extractFact_cases html rest A) as (ws & body & E & B & W & C).
  destruct C as [[_ C] | (r & Eb & [(sp & tail & Es & Cl & C) | [_ C]])];
    rewrite C in X; try discriminate.
  injection X as <-.
  exists pre, ws, tail, sp.
  change (String "{"%char sp ++ tail) with (String "{"%char (sp ++ tail)).
  rewrite <- Es, <- Eb, <- E. auto.
Qed.

Lemma extractFact_span_sound_witness :
  exists pre ws tail r,
    first_marker pre (ws ++ Sample.span ++ tail) Sample.html /\ blank ws
    /\ Sample.span = String "{"%char r /\ closes Sample.span.
Proof. apply (extractFact_span_sound Sample.html Sample.span). vm_compute. reflexivity. Defined.

(** X4.  [extractFact] fails in three ways only, and each message tells
    what the text is like: MarkerNotFound only when the marker occurs
    nowhere; UnexpectedToken only when what follows the first marker and
    its white space does not start with an opening brace; UnbalancedBraces
    only when it does and the depth never returns to zero. *)
Theorem extractFact_error_sound (html error : string) :
  extractFact html = ExtractError error ->
  (error = MarkerNotFound /\ forall pre post, html <> pre ++ marker ++ post)
  \/ (error = UnexpectedToken
      /\ exists pre ws rest,
           first_marker pre (ws ++ rest) html /\ blank ws /\ ws_width rest = O
           /\ forall r, rest <> String "{"%char r)
  \/ (error = UnbalancedBraces
      /\ exists pre ws rest r,
           first_marker pre (ws ++ rest) html /\ blank ws
           /\ rest = String "{"%char r /\ never_closes rest).
Proof.
  intros X.
  destruct (after_marker html) as [rest|] eqn:A.
  2:{ left. unfold extractFact in X. rewrite A in X. injection X as <-.
      split; [reflexivity | now apply after_marker_none]. }
  right.
  destruct (after_marker_found html rest A) as (pre & F).
  destruct (extractFact_cases html rest A) as (ws & body & E & B & W & C).
  rewrite E in F.
  destruct C as [[N C] | (r & Eb & [(sp & tail & Es & Cl & C) | [N C]])];
    rewrite C in X; try discriminate; injection X as <-.
  - left. split; [reflexivity|]. now exists pre, ws, body.
  - right. split; [reflexivity|]. now exists pre, ws, body, r.
Qed.

Lemma extractFact_error_sound_witness :
  (UnbalancedBraces = MarkerNotFound
   /\ forall pre post, "DisconSchedule.fact = {{}" <> pre ++ marker ++ post)
  \/ (UnbalancedBraces = UnexpectedToken
      /\ exists pre ws rest,
           first_marker pre (ws ++ rest) "DisconSchedule.fact = {{}" /\ blank ws
           /\ ws_width rest = O /\ forall r, rest <> String "{"%char r)
  \/ (UnbalancedBraces = UnbalancedBraces
      /\ exists pre ws rest r,
           first_marker pre (ws ++ rest) "DisconSchedule.fact = {{}" /\ blank ws
           /\ rest = String "{"%char r /\ never_closes rest).
Proof.
  apply (extractFact_error_sound "DisconSchedule.fact = {{}" UnbalancedBraces).
  vm_compute. reflexivity.
Defined.

(** ** Dates: the wall clock read back *)




















(** ** The groups of a payload *)

(** The pattern ignores case as the [i] flag does: the small letters
    U+1C80..U+1C86, whose upper case is a letter of А..Я, are letters of a
    group name; U+1C87 and ё, whose upper case is none, are not, and
    neither is the dotless ı, whose upper case is the ASCII I. *)
Example groupKeyRe_ignores_case :
  groupKeyRe "ᲀᲆ1.1" = true /\ groupKeyRe "гр12.3" = true
  /\ groupKeyRe "ᲇᲀ1.1" = false /\ groupKeyRe "ёж1.1" = false
  /\ groupKeyRe "ıK1.1" = false.
Proof. repeat split; vm_compute; reflexivity. Qed.

Lemma assign_fresh (k : string) (v : value) (fs : list (string * value)) :
  ~ In k (map fst fs) -> assign k v fs = (fs ++ [(k, v)])%list.
Proof.
  induction fs as [|[k' v'] fs IH]; intros N; [reflexivity|].
  cbn [assign map fst In app] in *.
  destruct (String.eqb_spec k' k) as [E|_]; [exfalso; apply N; now left|].
  rewrite IH; [reflexivity | tauto].
Qed.

Lemma lookup_distinct (k : string) (v : value) (fs : list (string * value)) :
  NoDup (map fst fs) -> In (k, v) fs -> lookup k fs = Some v.
Proof.
  induction fs as [|[k' v'] fs IH]; intros D I; [contradiction|].
  cbn [map fst] in D. inversion D as [|? ? N D']; subst.
  cbn [lookup]. destruct I as [E|I].
  - injection E as -> ->. now rewrite String.eqb_refl.
  - destruct (String.eqb_spec k' k) as [->|_]; [|now apply IH].
    exfalso. apply N. change k with (fst (k, v)). now apply in_map.
Qed.

Lemma group_images_keys (h : Host) (fs : list (string * value)) (k : string) :
  In k (map fst (group_images h fs)) -> In k (map fst fs).
Proof.
  unfold group_images. rewrite map_map. cbn [fst].
  intros I. apply in_map_iff in I. destruct I as (p & <- & I).
  apply filter_In in I. apply in_map. tauto.
Qed.

Lemma group_step_image (h : Host) (fs out : list (string * value)) (k : string) (v : value) :
  lookup k fs = Some v -> ~ In k (map fst out) ->
  group_step h fs out k
  = (out ++ group_images h [(k, v)])%list.
Proof.
  intros L N. unfold group_step, group_images. rewrite L. cbn [filter fst].
  destruct (groupKeyRe k); cbn [negb map fst snd].
  - unfold group_image. destruct v; now rewrite assign_fresh.
  - now rewrite app_nil_r.
Qed.

Lemma group_images_app (h : Host) (a b : list (string * value)) :
  group_images h (a ++ b) = (group_images h a ++ group_images h b)%list.
Proof. unfold group_images. now rewrite filter_app, map_app. Qed.

Lemma fold_group_images (h : Host) (fs : list (string * value)) :
  forall (l out : list (string * value)),
    NoDup (map fst l) ->
    (forall k v, In (k, v) l -> lookup k fs = Some v) ->
    (forall k, In k (map fst l) -> ~ In k (map fst out)) ->
    fold_left (group_step h fs) (map fst l) out = (out ++ group_images h l)%list.
Proof.
  induction l as [|[k v] l IH]; intros out D Hl Ho.
  - cbn. now rewrite app_nil_r.
  - cbn [map fst fold_left]. cbn [map fst] in D. inversion D as [|? ? N D']; subst.
    rewrite (group_step_image h fs out k v).
    + rewrite IH.
      * change ((k, v) :: l) with ([(k, v)] ++ l)%list.
        now rewrite group_images_app, app_assoc.
      * exact D'.
      * intros k' v' I. apply Hl. now right.
      * intros k' I J. rewrite map_app in J. apply in_app_or in J. destruct J as [J|J].
        -- apply (Ho k'); [now right | exact J].
        -- apply group_images_keys in J. cbn in J. destruct J as [<-|[]]. contradiction.
    + apply Hl. now left.
    + apply Ho. now left.
Qed.

Lemma extractGroupsWithIso_images (h : Host) (fs : list (string * value)) :
  NoDup (map fst fs) ->
  extractGroupsWithIso h (Some (VObj fs))
  = match group_images h fs with
    | [] => VNull
    | out => VObj out
    end.
Proof.
  intros D. unfold extractGroupsWithIso.
  rewrite (fold_group_images h fs fs []).
  - cbn [app]. destruct (group_images h fs); reflexivity.
  - exact D.
  - intros k v I. now apply lookup_distinct.
  - intros k _ [].
Qed.

Lemma entry_converted_unmatched (d s e : string) :
  entry_matches (VObj [("date", VStr d); ("startLocal", VStr s); ("endLocal", VStr e)]) = false.
Proof.
  unfold entry_matches, entry_start. cbn [prop lookup String.eqb Ascii.eqb Bool.eqb].
  unfold js_or at 1 2 3. cbn [truthy]. unfold js_or, null. cbn [truthy].
  now rewrite !andb_false_r.
Qed.

Lemma normalize_entry_idempotent (h : Host) (entry : value) :
  normalize_entry h (normalize_entry h entry) = normalize_entry h entry.
Proof.
  unfold normalize_entry at 2.
  destruct (entry_matches entry) eqn:M; [|reflexivity].
  destruct (toKyivIso h (js_String_opt (entry_date entry))
              (js_String_opt (pad_hour (entry_start entry)))) as [s|] eqn:S.
  - destruct (toKyivIso h (js_String_opt (entry_date entry))
                (js_String_opt (pad_hour (entry_end entry)))) as [e|] eqn:E.
    + rewrite normalize_entry_unmatched by apply entry_converted_unmatched.
      unfold normalize_entry. now rewrite M, S, E.
    + reflexivity.
  - reflexivity.
Qed.

Lemma group_image_idempotent (h : Host) (v : value) :
  group_image h (group_image h v) = group_image h v.
Proof.
  destruct v; try reflexivity. cbn [group_image]. f_equal.
  rewrite map_map. apply map_ext. apply normalize_entry_idempotent.
Qed.

Lemma group_images_idempotent (h : Host) (fs : list (string * value)) :
  group_images h (group_images h fs) = group_images h fs.
Proof.
  unfold group_images. induction fs as [|[k v] fs IH]; [reflexivity|].
  cbn [filter fst]. destruct (groupKeyRe k) eqn:G; [|exact IH].
  cbn [map filter fst snd]. rewrite G. cbn [map fst snd].
  now rewrite group_image_idempotent, IH.
Qed.

Lemma group_images_distinct (h : Host) (fs : list (string * value)) :
  NoDup (map fst fs) -> NoDup (map fst (group_images h fs)).
Proof.
  induction fs as [|[k v] fs IH]; intros D; [constructor|].
  cbn [map fst] in D. inversion D as [|? ? N D']; subst.
  unfold group_images. cbn [filter fst].
  destruct (groupKeyRe k); [|now apply IH].
  cbn [map fst]. constructor; [|now apply IH].
  intros I. apply N. now apply (group_images_keys h).
Qed.



(** X8.  Normalising twice is normalising once: [extractGroupsWithIso] on
    its own result returns that result.  A converted entry has no [start]
    or [end] under any alias, so it is not converted again. *)
Theorem extractGroupsWithIso_idempotent (h : Host) (data : jsval) :
  distinct_keys data ->
  extractGroupsWithIso h (Some (extractGroupsWithIso h data)) = extractGroupsWithIso h data.
Proof.
  destruct data as [[| | | | |fs]|]; try reflexivity.
  intros D. cbn [distinct_keys] in D.
  rewrite (extractGroupsWithIso_images h fs D).
  destruct (group_images h fs) as [|p out] eqn:E; [reflexivity|].
  rewrite extractGroupsWithIso_images.
  - rewrite <- E, group_images_idempotent. now rewrite E.
  - rewrite <- E. now apply group_images_distinct.
Qed.

Lemma extractGroupsWithIso_idempotent_witness :
  extractGroupsWithIso Sample.host
    (Some (extractGroupsWithIso Sample.host (prop Sample.wrapped "data")))
  = extractGroupsWithIso Sample.host (prop Sample.wrapped "data").
Proof.
  apply (extractGroupsWithIso_idempotent Sample.host (prop Sample.wrapped "data")).
  cbn [Sample.wrapped prop lookup String.eqb Ascii.eqb Bool.eqb distinct_keys map fst].
  repeat (apply NoDup_cons; [cbn [In]; intuition discriminate|]). apply NoDup_nil.
Defined.

(** ** The branches of [normalize] *)







(** ** The emptiness flags *)





(** ** The attempts counted *)

Lemma on_crash_existing (h : Host) (argv : list string) (m : string) (w : World)
    (existing doc : value) :
  usage_ok (parseArgs argv) = true ->
  output w = OutJson existing -> truthy (Some existing) = true ->
  error_document existing (or_null (str (upstream (parseArgs argv)))) 500
    ("parse_fact crashed: " ++ m) (reading h (ticks w)) = Some doc ->
  on_crash h argv m w = (Ret tt, with_output (tick w) (OutJson doc)).
Proof.
  intros U O T E.
  assert (Ao : truthy (str (arg_output (parseArgs argv))) = true).
  { unfold usage_ok in U. apply andb_true_iff in U. tauto. }
  unfold on_crash. rewrite Ao. unfold bind at 1, loadExisting. rewrite O.
  unfold bind at 1. rewrite updateStatusOnError_existing by exact T.
  now rewrite E.
Qed.

Lemma invoke_counts (h : Host) (argv : list string) (w : World) (n : Z) :
  usage_ok (parseArgs argv) = true ->
  Z.abs n < 9007199254740992 ->
  counted n (output w) -> counted (n + 1) (output (snd (invoke h argv w))).
Proof.
  intros U Bn (doc0 & O & S & A).
  pose proof (document_shape_truthy doc0 S) as T.
  pose proof (prev_attempt_status doc0 n A) as Pn.
  assert (Err : forall code msg now,
            exists doc, error_document doc0 (or_null (str (upstream (parseArgs argv))))
                          code msg now = Some doc
                        /\ counted (n + 1) (OutJson doc)).
  { intros code msg now.
    destruct (error_document_shape doc0 (or_null (str (upstream (parseArgs argv))))
                code msg now S) as (doc & E & Sd & _ & _ & _ & Ad).
    exists doc. split; [exact E|]. exists doc.
    rewrite Pn, (js_add_one n Bn) in Ad. auto. }
  destruct (input_cases h (input_path (parseArgs argv)) (input w))
    as [(code & msg & Sf) | [(m & I) | [(html & j & method & I & X & P)
                                       | (html & j & method & v & I & X & P & N)]]].
  - destruct (Err code msg (reading h (ticks w))) as (doc & E & C).
    rewrite (invoke_exit h argv w (with_output (tick w) (OutJson doc)) 0); [exact C|].
    rewrite (main_stage_failure h argv w code msg U Sf).
    now apply (skip_gracefully_existing h _ _ code msg w doc0 doc).
  - destruct (Err 500 ("parse_fact crashed: " ++ m) (reading h (ticks w))) as (doc & E & C).
    rewrite (invoke_throw h argv w w _ m (main_crashes_early h argv w m U I)
               (on_crash_existing h argv m w doc0 doc U O T E)).
    exact C.
  - destruct (Err 500 ("parse_fact crashed: " ++ "Cannot convert undefined or null to object")
                (reading h (ticks (tick (tick w))))) as (doc & E & C).
    rewrite (invoke_throw h argv w _ _ _ (main_parsed_null h argv w html j method U I X P)
               (on_crash_existing h argv _ (tick (tick w)) doc0 doc U O T E)).
    exact C.
  - destruct (invoke_parsed h argv w html j method v U I X P N)
      as (doc & E & _ & _ & _ & _ & _ & Ad & Sd & _).
    rewrite E. cbn [snd with_output output]. exists doc.
    split; [reflexivity|]. split; [exact Sd|].
    rewrite Ad. unfold loaded. rewrite O, T, Pn. now rewrite (js_add_one n Bn).
Qed.

(** X11.  The attempt counter counts invocations: over a document with
    [n] attempts, any sequence of invocations, each with its own input
    (missing, unreadable, or a text whose literal, if it has one, is
    strict JSON) and whether it succeeds or fails, leaves a document with
    [n] plus the number of invocations, as long as the count stays within
    the integers a number holds exactly (up to 2^53). *)
Theorem attempts_count_invocations (h : Host) (argv : list string) (inputs : list in_file) :
  usage_ok (parseArgs argv) = true ->
  forallb (no_evaluation h) inputs = true ->
  forall (w : World) (n : Z),
    - 9007199254740992 < n ->
    n + Z.of_nat (List.length inputs) <= 9007199254740992 ->
    counted n (output w) ->
    counted (n + Z.of_nat (List.length inputs)) (output (invocations h argv inputs w)).
Proof.
  intros U. induction inputs as [|i inputs IH]; intros E w n Lo Hi C.
  - cbn [invocations List.length Z.of_nat]. now rewrite Z.add_0_r.
  - cbn [invocations List.length] in *.
    cbn [forallb] in E. apply andb_true_iff in E. destruct E as [_ E].
    replace (n + Z.of_nat (S (List.length inputs)))
      with (n + 1 + Z.of_nat (List.length inputs)) by lia.
    apply (IH E); [lia | lia |].
    apply invoke_counts; [exact U | lia | exact C].
Qed.

Lemma attempts_count_invocations_witness :
  counted 10
    (output (invocations Sample.host Sample.argv
               [InMissing; InText Sample.html; InUnreadable "EACCES"]
               (Sample.world InMissing (OutJson (VObj Sample.prior_fields))))).
Proof.
  apply (attempts_count_invocations Sample.host Sample.argv
           [InMissing; InText Sample.html; InUnreadable "EACCES"] eq_refl
           ltac:(vm_compute; reflexivity)
           (Sample.world InMissing (OutJson (VObj Sample.prior_fields))) 7);
    [lia | cbn; lia |].
  exists (VObj Sample.prior_fields). repeat split; reflexivity.
Defined.

(** ** The exit status *)

(** X12.  When one of [--region], [--in], [--out] is missing or empty the
    exit status is 2, nothing is written and the clock is not read.  With
    the three of them given, and an input whose literal (if it has one) is
    strict JSON, the exit status is 0, never 1: no exception escapes. *)
Theorem exit_status_by_usage (h : Host) (argv : list string) (w : World) :
  (usage_ok (parseArgs argv) = false -> invoke h argv w = (2, w))
  /\ (usage_ok (parseArgs argv) = true -> no_evaluation h (input w) = true ->
      fst (invoke h argv w) = 0).
Proof.
  split.
  - intros U. exact (invoke_exit h argv w w 2 (main_usage h argv w U)).
  - apply exit_status_zero.
Qed.

Lemma exit_status_by_usage_witness :
  invoke Sample.host ["node"; "scripts/parse_fact.js"; "--region"; "kyiv"; "--in"]
    (Sample.world InMissing OutMissing)
  = (2, Sample.world InMissing OutMissing).
Proof.
  exact (proj1 (exit_status_by_usage Sample.host
                  ["node"; "scripts/parse_fact.js"; "--region"; "kyiv"; "--in"]
                  (Sample.world InMissing OutMissing)) eq_refl).
Defined.

(** ** The helper [updateMetaFromExisting] *)

(** X17.  The helper [updateMetaFromExisting], which nothing calls, agrees
    with what [main] does in line: with a prior document, the creation
    stamp of the document written is what the helper returns for the prior
    document and the stamp of the fresh one. *)
Theorem updateMetaFromExisting_is_merge (existing regionId upstream : value)
    (now now2 hash : string) (dataOut : value) (dataEmpty : bool) (reason : value) (raw : bool) :
  truthy (Some existing) = true -> now2 <> EmptyString ->
  meta_field (merge_parsed existing
                (fresh_document regionId upstream now2 dataOut dataEmpty reason raw) now hash)
    "fileCreated"
  = updateMetaFromExisting existing now2.
Proof.
  intros T N.
  destruct (merge_parsed_fresh existing regionId upstream now now2 hash dataOut dataEmpty
              reason raw) as (_ & _ & _ & -> & _).
  assert (Tn : truthy (Some (VStr now2)) = true).
  { cbn [truthy]. destruct (String.eqb_spec now2 EmptyString); [contradiction | reflexivity]. }
  unfold merged_stamp, updateMetaFromExisting, meta_field. rewrite T. cbn [negb andb].
  destruct (truthy (prop existing "meta")); [|reflexivity].
  cbn [andb]. unfold js_or.
  destruct (truthy (prop_of (prop existing "meta") "fileCreated")) eqn:F.
  - now apply or_null_truthy.
  - now apply or_null_truthy.
Qed.

Lemma updateMetaFromExisting_is_merge_witness :
  meta_field (merge_parsed (VObj Sample.prior_fields)
                (fresh_document (VStr "kyiv") VNull "2025-03-30T00:00:01.000Z" (VArr []) false
                   VNull false) "2025-03-30T00:00:00.000Z" "abc")
    "fileCreated"
  = Some (VStr "2025-01-01T00:00:00.000Z").
Proof.
  rewrite (updateMetaFromExisting_is_merge (VObj Sample.prior_fields) (VStr "kyiv") VNull
             "2025-03-30T00:00:00.000Z" "2025-03-30T00:00:01.000Z" "abc" (VArr []) false VNull
             false eq_refl ltac:(discriminate)).
  reflexivity.
Defined.

(** ** The first document of a region *)






(** ** The source recorded on a failure *)




(** ** The first document, from a template file *)





(** ** A failure that is not recorded *)




(** ** Failures leave the data alone *)




(** ** The document of a successful run *)



